(** * go-tmg2, package [file]: the container codec

    A shallow embedding of [file/file.go] (the current revision, the one with
    [SetReadMode]) and the properties of its specification.

    Conventions of the embedding.
    - Go's [byte]/[uint8] is [Byte.byte]; [uint], [uint64], [int] and [int64]
      are [Z] with the wrap-around written out ([uint] is 64 bits wide, as on
      the amd64 and arm64 ports).
    - A Go [string] is a sequence of bytes: [String.string], converted with
      [list_byte_of_string] and [string_of_list_byte].
    - An [io.Reader] is one of the three readers the package is used with
      ([*bytes.Reader], [*bytes.Buffer], [*os.File]) over its unread bytes;
      the destination of [WriteFile] is a [*bytes.Buffer], as in the tests.
    - [compress/gzip] is a collaborator outside the package: it is a
      parameter of the development ([Section Container]).
    - A Go multi-value return [(v, err)] is a tuple whose error component is
      [option error] ([None] is [nil]); a panic is an [outcome]. *)

From Stdlib Require Import ZArith NArith List Lia Bool String Ascii.
From Stdlib Require Import Strings.Byte.
Import ListNotations.
Local Open Scope Z_scope.

(** ** Integers and bytes *)

Definition uint64 (z : Z) : Z := z mod 2 ^ 64.

(** [uint] of the 64-bit ports. *)
Definition uint (z : Z) : Z := z mod 2 ^ 64.

(** A signed 64-bit result, two's complement. *)
Definition int64 (z : Z) : Z := (z + 2 ^ 63) mod 2 ^ 64 - 2 ^ 63.

(** The conversion [byte(x)] of an unsigned integer: the low eight bits. *)
Definition byte_of_Z (z : Z) : byte :=
  match Byte.of_N (Z.to_N (z mod 256)) with
  | Some b => b
  | None => x00
  end.

(** The conversion [uint64(b)] of a byte. *)
Definition Z_of_byte (b : byte) : Z := Z.of_N (Byte.to_N b).

(** [make([]byte, n)] *)
Definition make (n : nat) : list byte := repeat x00 n.

(** [copy(dst, src)] into a slice [dst]: the bytes copied replace a prefix of
    [dst], the rest of [dst] keeps what it held. *)
Definition copy (dst src : list byte) : list byte :=
  firstn (List.length dst) src ++ skipn (List.length src) dst.

(** ** Errors and panics *)

Inductive error : Type :=
| io_EOF
| io_ErrUnexpectedEOF
| os_ErrClosed
| gzip_ErrHeader
| gzip_ErrChecksum
| flate_CorruptInputError
| Errorf (msg : string).

Inductive panic_value : Type :=
| panic_error (e : error)          (* panic(err) *)
| panic_string (msg : string)      (* panic("...") *)
| nil_dereference.                 (* runtime error: nil pointer dereference *)

Inductive outcome (A : Type) : Type :=
| Returns (a : A)
| Panics (p : panic_value).
Arguments Returns {A} a.
Arguments Panics {A} p.

(** ** Readers

    [r_data] holds the bytes not read yet.  The three kinds differ in what
    [Read] answers at the end of the data and in whether they have a [Close]
    method ([io.Closer]): only [*os.File] has one. *)

Inductive reader_kind : Type := BytesReader | BytesBuffer | OsFile.

Record Reader : Type := mkReader {
  r_kind : reader_kind;
  r_data : list byte;
  r_closed : bool
}.

Definition NewReader (s : list byte) : Reader := mkReader BytesReader s false.
Definition NewBuffer (s : list byte) : Reader := mkReader BytesBuffer s false.
Definition OpenFile (s : list byte) : Reader := mkReader OsFile s false.

Definition set_data (r : Reader) (d : list byte) : Reader :=
  mkReader (r_kind r) d (r_closed r).

(** [r.Read(p)]: the new contents of [p], the count [n], the error, and the
    reader afterwards.
    - [bytes.Reader]: [io.EOF] once the data is exhausted, whatever [len(p)];
    - [bytes.Buffer]: [io.EOF] once the data is exhausted, except that a
      zero-length [p] gets [(0, nil)];
    - [os.File]: as the buffer on an open file, [os.ErrClosed] on a closed one.
    A read with data left copies [min(len(p), remaining)] bytes and reports
    no error: a short count is not an error. *)
Definition Read (r : Reader) (p : list byte)
  : list byte * Z * option error * Reader :=
  match r_kind r, r_closed r with
  | OsFile, true => (p, 0, Some os_ErrClosed, r)
  | _, _ =>
    match r_data r with
    | [] =>
      match r_kind r, p with
      | BytesReader, _ => (p, 0, Some io_EOF, r)
      | _, [] => (p, 0, None, r)
      | _, _ :: _ => (p, 0, Some io_EOF, r)
      end
    | _ :: _ =>
      let n := Nat.min (List.length p) (List.length (r_data r)) in
      (copy p (r_data r), Z.of_nat n, None, set_data r (skipn n (r_data r)))
    end
  end.

(** [b.ReadByte()] of [bytes.Buffer]. *)
Definition ReadByte (r : Reader) : byte * option error * Reader :=
  match r_data r with
  | [] => (x00, Some io_EOF, r)
  | c :: rest => (c, None, set_data r rest)
  end.

(** The [Close] method, when the reader has one. *)
Definition Closer (r : Reader) : option (option error * Reader) :=
  match r_kind r with
  | OsFile =>
    if r_closed r then Some (Some os_ErrClosed, r)
    else Some (None, mkReader OsFile (r_data r) true)
  | _ => None
  end.

(** ** The destination: a [bytes.Buffer] written to

    [Write] on a [bytes.Buffer] appends and returns [(len(p), nil)]. *)

Record Buffer : Type := mkBuffer { b_bytes : list byte }.

Definition Write (dst : Buffer) (p : list byte) : Z * option error * Buffer :=
  (Z.of_nat (List.length p), None, mkBuffer (b_bytes dst ++ p)).

(** [buffer.WriteTo(out)] of a temporary [bytes.Buffer] holding [content]:
    one [Write] of everything, the count as [int64]. *)
Definition WriteTo (content : list byte) (out : Buffer)
  : Z * option error * Buffer :=
  match content with
  | [] => (0, None, out)
  | _ => Write out content
  end.

(** ** Primitive codec *)

(** The loop of [writeNumber]: [left] is [byteCount - i], so that the shift
    [8 * (byteCount - i - 1)] is [8 * (left - 1)]. *)
Fixpoint writeNumber_loop (number : Z) (left : nat) : list byte :=
  match left with
  | O => []
  | S left' =>
    byte_of_Z (Z.shiftr number (8 * Z.of_nat left'))
      :: writeNumber_loop number left'
  end.

Definition writeNumber (number : Z) (byteCount : nat) (out : Buffer)
  : Z * option error * Buffer :=
  WriteTo (writeNumber_loop number byteCount) out.

(** The loop of [readNumber] over the slice [bytez] from index [i] on: the
    shift [8 * (byteCount - i - 1)] is eight times the number of bytes after
    [bytez[i]]. *)
Fixpoint readNumber_loop (bytez : list byte) (number : Z) : Z :=
  match bytez with
  | [] => number
  | b :: rest =>
    readNumber_loop rest
      (Z.lor number
         (uint64 (Z.shiftl (Z_of_byte b) (8 * Z.of_nat (List.length rest)))))
  end.

(** [readNumber]: one [Read] into a slice of [byteCount] bytes, whose count is
    discarded; only the error is looked at. *)
Definition readNumber (byteCount : nat) (inp : Reader)
  : Z * option error * Reader :=
  let '(bytez, _, err, inp) := Read inp (make byteCount) in
  match err with
  | Some e => (0, Some e, inp)
  | None => (readNumber_loop bytez 0, None, inp)
  end.

Definition writeLengthPrefixedString_bytes (str : string) : list byte :=
  writeNumber_loop (uint (Z.of_nat (List.length (list_byte_of_string str)))) 2
    ++ list_byte_of_string str.

Definition writeLengthPrefixedString (str : string) (out : Buffer)
  : Z * option error * Buffer :=
  WriteTo (writeLengthPrefixedString_bytes str) out.

Definition readLengthPrefixedString (inp : Reader)
  : string * Z * option error * Reader :=
  let '(length, err, inp) := readNumber 2 inp in
  match err with
  | Some e => (EmptyString, 0, Some e, inp)
  | None =>
    let '(stringBytes, _, err, inp) := Read inp (make (Z.to_nat length)) in
    match err with
    | Some e => (EmptyString, 0, Some e, inp)
    | None =>
      (string_of_list_byte stringBytes, int64 (2 + int64 length), None, inp)
    end
  end.

(** ** [time.Time]

    A time is its Unix seconds and the nanoseconds within the second.
    [UnixNano] is computed in [int64] and wraps outside the years 1678-2262. *)

Record Time : Type := mkTime { t_sec : Z; t_nsec : Z }.

(** [time.Unix(sec, nsec)] *)
Definition time_Unix (sec nsec : Z) : Time :=
  mkTime (sec + nsec / 1000000000) (nsec mod 1000000000).

(** [t.Unix()] *)
Definition Unix (t : Time) : Z := t_sec t.

(** [t.UnixNano()] *)
Definition UnixNano (t : Time) : Z := int64 (t_sec t * 1000000000 + t_nsec t).

(** The zero [time.Time]: January 1, year 1, 00:00:00 UTC. *)
Definition zeroTime : Time := mkTime (-62135596800) 0.

(** ** Data model *)

Record FileHeader : Type := mkFileHeader {
  UploadDate : Time;
  ApiKeyID : byte;
  MimeType : string;
  OriginalName : string
}.

Definition zeroFileHeader : FileHeader :=
  mkFileHeader zeroTime x00 EmptyString EmptyString.

(** The state of a [*gzip.Reader]: the decompressed bytes it has still to
    deliver, the way its stream ends ([None]: cleanly, with [io.EOF]; [Some e]:
    with the decompression error [e]), and the error it is stuck in. *)
Record gzipReader : Type := mkGzipReader {
  z_out : list byte;
  z_fin : option error;
  z_err : option error
}.

(** [currentSource] points to [rawSource], to [decompressSource], or nowhere. *)
Inductive source_ref : Type := src_nil | src_raw | src_decompress.

Record FileHandle : Type := mkFileHandle {
  Header : FileHeader;
  decompressSource : option gzipReader;
  rawSource : Reader;
  currentSource : source_ref
}.

Definition ReadMode : Type := N.
Definition DecompressReadMode : ReadMode := 0%N.
Definition RawReadMode : ReadMode := 1%N.

(** ** Calls to the collaborators, and the effects of the handle's methods *)

Inductive event : Type :=
| call_gzip_NewReader
| call_gzip_Close (result : option error)
| call_raw_Close (result : option error).

Definition eff (A : Type) : Type := (list event * outcome A)%type.

Definition ret {A} (a : A) : eff A := ([], Returns a).

Definition bind {A B} (m : eff A) (k : A -> eff B) : eff B :=
  match m with
  | (l, Returns a) => let '(l', r) := k a in (l ++ l', r)
  | (l, Panics p) => (l, Panics p)
  end.

Definition trace {A} (m : eff A) : list event := fst m.
Definition result {A} (m : eff A) : outcome A := snd m.

(** [z.Read(p)] of a [*gzip.Reader]. *)
Definition gzip_Read (z : gzipReader) (p : list byte)
  : list byte * Z * option error * gzipReader :=
  match z_err z with
  | Some e => (p, 0, Some e, z)
  | None =>
    match z_out z with
    | [] =>
      let e := match z_fin z with None => io_EOF | Some e => e end in
      (p, 0, Some e, mkGzipReader [] (z_fin z) (Some e))
    | _ :: _ =>
      let n := Nat.min (List.length p) (List.length (z_out z)) in
      (copy p (z_out z), Z.of_nat n, None,
       mkGzipReader (skipn n (z_out z)) (z_fin z) None)
    end
  end.

(** [z.Close()] of a [*gzip.Reader]: the decompressor's error, unless it is
    [io.EOF]. *)
Definition gzip_Close (z : gzipReader) : option error :=
  match z_err z with
  | Some io_EOF => None
  | e => e
  end.

(** [io.Copy]'s reading side: everything the source still holds. *)
Definition io_Copy_source (src : Reader) : list byte * option error * Reader :=
  match r_kind src, r_closed src with
  | OsFile, true => ([], Some os_ErrClosed, src)
  | _, _ => (r_data src, None, set_data src [])
  end.

Definition set_currentSource (h : FileHandle) (c : source_ref) : FileHandle :=
  mkFileHandle (Header h) (decompressSource h) (rawSource h) c.
Definition set_rawSource (h : FileHandle) (r : Reader) : FileHandle :=
  mkFileHandle (Header h) (decompressSource h) r (currentSource h).

Section Container.

(** The collaborator [compress/gzip].
    - [gzip_stream B]: the bytes a [gzip.Writer] emits to its destination for
      the payload [B], from [NewWriter] through the writes of [io.Copy] to the
      deferred [Flush] and [Close];
    - [gzip_NewReader src]: the header check of [gzip.NewReader] on a source,
      and the source afterwards;
    - [gzip_pull z n src]: the source after the decompressor in state [z] has
      served a read into [n] bytes of room. *)
Variable gzip_stream : list byte -> list byte.
Variable gzip_NewReader : Reader -> (error + gzipReader) * Reader.
Variable gzip_pull : gzipReader -> nat -> Reader -> Reader.

(** *** The handle *)

Definition SetReadMode (handle : FileHandle) (mode : ReadMode)
  : eff FileHandle :=
  if N.eqb mode DecompressReadMode then
    match decompressSource handle with
    | None =>
      match gzip_NewReader (rawSource handle) with
      | (inl err, _) => ([call_gzip_NewReader], Panics (panic_error err))
      | (inr decompress, raw) =>
        ([call_gzip_NewReader],
         Returns (mkFileHandle (Header handle) (Some decompress) raw
                               src_decompress))
      end
    | Some _ => ret (set_currentSource handle src_decompress)
    end
  else if N.eqb mode RawReadMode then
    ret (set_currentSource handle src_raw)
  else ([], Panics (panic_string "bad mode passed")).

Definition FileHandle_Close (handle : FileHandle)
  : eff (option error * FileHandle) :=
  match decompressSource handle with
  | None => ([], Panics nil_dereference)
  | Some z =>
    let closed := gzip_Close z in
    match Closer (rawSource handle) with
    | Some (err, raw) =>
      ([call_gzip_Close closed; call_raw_Close err],
       Returns (err, set_rawSource handle raw))
    | None =>
      ([call_gzip_Close closed],
       Returns (None, set_currentSource handle src_nil))
    end
  end.

Definition FileHandle_Read (handle : FileHandle) (p : list byte)
  : eff (list byte * Z * option error * FileHandle) :=
  match currentSource handle with
  | src_nil => ([], Panics nil_dereference)
  | src_raw =>
    let '(p, n, err, raw) := Read (rawSource handle) p in
    ret (p, n, err, set_rawSource handle raw)
  | src_decompress =>
    match decompressSource handle with
    | None => ([], Panics nil_dereference)
    | Some z =>
      let '(p', n, err, z') := gzip_Read z p in
      ret (p', n, err,
           mkFileHandle (Header handle) (Some z')
             (gzip_pull z (List.length p) (rawSource handle)) src_decompress)
    end
  end.

(** *** The writer *)

Definition nil_dst_src : error :=
  Errorf "you must provide a non nil dst and src".

(** [WriteFile(dst, info, src)]: the results [(nWritten, err)], and the
    destination and the source afterwards.  The deferred [Flush] and [Close]
    of the compressor run on every return after it was opened, so that the
    destination has received [gzip_stream] of what [io.Copy] took from the
    source. *)
Definition WriteFile (dst : option Buffer) (info : FileHeader)
    (src : option Reader)
  : Z * option error * option Buffer * option Reader :=
  let nWritten := 0 in
  match dst, src with
  | Some dst, Some src =>
    let '(n, err, dst) := Write dst [xfa; xfa] in
    match err with Some e => (nWritten, Some e, Some dst, Some src) | None =>
    let nWritten := nWritten + n in
    let headerBuffer := mkBuffer [] in
    let '(_, err, headerBuffer) :=
      writeNumber (uint (Z.quot (UnixNano (UploadDate info)) 1000000000)) 5
                  headerBuffer in
    match err with Some e => (nWritten, Some e, Some dst, Some src) | None =>
    let headerBuffer := mkBuffer (b_bytes headerBuffer ++ [ApiKeyID info]) in
    let '(_, err, headerBuffer) :=
      writeLengthPrefixedString (MimeType info) headerBuffer in
    match err with Some e => (nWritten, Some e, Some dst, Some src) | None =>
    let '(_, err, headerBuffer) :=
      writeLengthPrefixedString (OriginalName info) headerBuffer in
    match err with Some e => (nWritten, Some e, Some dst, Some src) | None =>
    let headLength := Z.of_nat (List.length (b_bytes headerBuffer)) in
    let '(n64, err, dst) := writeNumber (uint headLength) 2 dst in
    match err with Some e => (nWritten, Some e, Some dst, Some src) | None =>
    let nWritten := nWritten + n64 in
    let '(n64, err, dst) := WriteTo (b_bytes headerBuffer) dst in
    match err with Some e => (nWritten, Some e, Some dst, Some src) | None =>
    let nWritten := nWritten + n64 in
    let '(copied, err, src) := io_Copy_source src in
    let n64 := Z.of_nat (List.length copied) in
    let dst := mkBuffer (b_bytes dst ++ gzip_stream copied) in
    match err with Some e => (nWritten, Some e, Some dst, Some src) | None =>
    let nWritten := nWritten + n64 in
    (nWritten, None, Some dst, Some src)
    end end end end end end end
  | _, _ => (nWritten, Some nil_dst_src, dst, src)
  end.

(** *** The reader *)

Definition bad_magic : error :=
  Errorf "file does not begin with header 0xFAFA".

Definition nil_reader : error :=
  Errorf "you need to provide a non nil reader".

Definition set_UploadDate (h : FileHeader) (t : Time) : FileHeader :=
  mkFileHeader t (ApiKeyID h) (MimeType h) (OriginalName h).
Definition set_ApiKeyID (h : FileHeader) (k : byte) : FileHeader :=
  mkFileHeader (UploadDate h) k (MimeType h) (OriginalName h).
Definition set_MimeType (h : FileHeader) (s : string) : FileHeader :=
  mkFileHeader (UploadDate h) (ApiKeyID h) s (OriginalName h).
Definition set_OriginalName (h : FileHeader) (s : string) : FileHeader :=
  mkFileHeader (UploadDate h) (ApiKeyID h) (MimeType h) s.

(** The second half of [ReadFileHeader]: the fields, out of [headerBuf]. *)
Definition ReadFileHeader_fields (header : FileHeader) (headerBuf : Reader)
  : FileHeader * option error :=
  let '(secondsTime, err, headerBuf) := readNumber 5 headerBuf in
  match err with Some e => (header, Some e) | None =>
  let header := set_UploadDate header (time_Unix (int64 secondsTime) 0) in
  let '(k, err, headerBuf) := ReadByte headerBuf in
  let header := set_ApiKeyID header k in
  match err with Some e => (header, Some e) | None =>
  let '(s, _, err, headerBuf) := readLengthPrefixedString headerBuf in
  let header := set_MimeType header s in
  match err with Some e => (header, Some e) | None =>
  let '(s, _, err, headerBuf) := readLengthPrefixedString headerBuf in
  let header := set_OriginalName header s in
  match err with Some e => (header, Some e) | None =>
  (header, None)
  end end end end.

(** [ReadFileHeader(src)]: the results [(header, nRead, err)] and the source
    afterwards. *)
Definition ReadFileHeader (src : Reader)
  : FileHeader * Z * option error * Reader :=
  let header := zeroFileHeader in
  let nRead := 0 in
  let '(twoBytes, n, err, src) := Read src (make 2) in
  match err with Some e => (header, nRead, Some e, src) | None =>
  let nRead := nRead + n in
  if negb (Byte.eqb (nth 0 twoBytes x00) (nth 1 twoBytes x00))
     && negb (Byte.eqb (nth 0 twoBytes x00) xfa)
  then (header, nRead, Some bad_magic, src)
  else
  let '(headerLength, err, src) := readNumber 2 src in
  match err with Some e => (header, nRead, Some e, src) | None =>
  let '(headerBytes, _, err, src) := Read src (make (Z.to_nat headerLength)) in
  match err with Some e => (header, nRead, Some e, src) | None =>
  let headerBuf := NewBuffer headerBytes in
  let '(header, err) := ReadFileHeader_fields header headerBuf in
  (header, nRead, err, src)
  end end end.

(** [ReadFile(src)]: the results [(handle, err)]; [handle] is [nil] only for a
    [nil] source. *)
Definition ReadFile (src : option Reader)
  : eff (option FileHandle * option error) :=
  match src with
  | None => ret (None, Some nil_reader)
  | Some src =>
    let '(header, _, err, src) := ReadFileHeader src in
    let handle := mkFileHandle header None src src_nil in
    match err with
    | Some e => ret (Some handle, Some e)
    | None =>
      bind (SetReadMode handle RawReadMode)
           (fun handle => ret (Some handle, None))
    end
  end.

(** *** Reading a handle to its end

    [ioutil.ReadAll(handle)]: reads into room for [MinRead] bytes until an
    error; [io.EOF] ends it without an error.  [fuel] bounds the number of
    reads; [None] when it is used up. *)

Definition MinRead : nat := 512.

Fixpoint ReadAll (fuel : nat) (handle : FileHandle)
  : option (eff (list byte * option error * FileHandle)) :=
  match fuel with
  | O => None
  | S fuel =>
    match FileHandle_Read handle (make MinRead) with
    | (l, Panics v) => Some (l, Panics v)
    | (l, Returns (p, n, Some io_EOF, handle)) =>
      Some (l, Returns (firstn (Z.to_nat n) p, None, handle))
    | (l, Returns (p, n, Some e, handle)) =>
      Some (l, Returns (firstn (Z.to_nat n) p, Some e, handle))
    | (l, Returns (p, n, None, handle)) =>
      match ReadAll fuel handle with
      | None => None
      | Some (l', Returns (data, err, handle)) =>
        Some (l ++ l', Returns (firstn (Z.to_nat n) p ++ data, err, handle))
      | Some (l', Panics v) => Some (l ++ l', Panics v)
      end
    end
  end.

(** *** Runs of a handle *)

Inductive op : Type :=
| op_SetReadMode (mode : ReadMode)
| op_Read (room : nat)
| op_Close.

Definition step (o : op) (handle : FileHandle) : eff FileHandle :=
  match o with
  | op_SetReadMode mode => SetReadMode handle mode
  | op_Read room =>
    bind (FileHandle_Read handle (make room))
         (fun '(_, _, _, handle) => ret handle)
  | op_Close =>
    bind (FileHandle_Close handle) (fun '(_, handle) => ret handle)
  end.

Fixpoint run (ops : list op) (handle : FileHandle) : eff FileHandle :=
  match ops with
  | [] => ret handle
  | o :: ops => bind (step o handle) (run ops)
  end.

End Container.

(** ** The wire format, as [WriteFile] lays it out *)

(** The four fields of a header, in order. *)
Definition wire_header (seconds : Z) (key : byte) (mime name : string)
  : list byte :=
  writeNumber_loop seconds 5
    ++ [key]
    ++ writeLengthPrefixedString_bytes mime
    ++ writeLengthPrefixedString_bytes name.

(** Two leading bytes, the header length, the header. *)
Definition wire_frame (m0 m1 : byte) (header : list byte) : list byte :=
  [m0; m1]
    ++ writeNumber_loop (uint (Z.of_nat (List.length header))) 2
    ++ header.

(** The seconds [WriteFile] hands to [writeNumber]. *)
Definition stored_seconds (info : FileHeader) : Z :=
  uint (Z.quot (UnixNano (UploadDate info)) 1000000000).

(** The contents of [headerBuffer] in [WriteFile]. *)
Definition headerBytes (info : FileHeader) : list byte :=
  wire_header (stored_seconds info) (ApiKeyID info) (MimeType info)
              (OriginalName info).

(** What [WriteFile] writes before the compressed payload. *)
Definition frame (info : FileHeader) : list byte :=
  wire_frame xfa xfa (headerBytes info).

(** The header with its timestamp cut to whole seconds. *)
Definition seconds_only (info : FileHeader) : FileHeader :=
  set_UploadDate info (time_Unix (Unix (UploadDate info)) 0).

(** Each string fits its two-byte length prefix. *)
Definition strings_fit (mime name : string) : Prop :=
  Z.of_nat (List.length (list_byte_of_string mime)) <= 65535 /\
  Z.of_nat (List.length (list_byte_of_string name)) <= 65535.

(** The encoded header fits the two-byte header length. *)
Definition wire_fits (mime name : string) : Prop :=
  10 + Z.of_nat (List.length (list_byte_of_string mime))
     + Z.of_nat (List.length (list_byte_of_string name))
  <= 65535.

Definition header_fits (info : FileHeader) : Prop :=
  wire_fits (MimeType info) (OriginalName info).

(** The time is at or after the epoch and its [UnixNano] is in [int64]:
    from 1970 into the year 2262. *)
Definition nano_representable (t : Time) : Prop :=
  0 <= t_sec t /\ 0 <= t_nsec t < 1000000000 /\
  t_sec t * 1000000000 + t_nsec t < 2 ^ 63.

(** The two leading bytes the check of [ReadFileHeader] lets through. *)
Definition magic_accepted (m0 m1 : byte) : Prop := m0 = m1 \/ m0 = xfa.

(** A reader [Read] does not refuse: anything but a closed file. *)
Definition readable (r : Reader) : bool :=
  match r_kind r, r_closed r with
  | OsFile, true => false
  | _, _ => true
  end.

(** The handle [ReadFile] returns for a source left at [raw]. *)
Definition raw_handle (info : FileHeader) (raw : Reader) : FileHandle :=
  mkFileHandle info None raw src_raw.

Definition built (handle : FileHandle) : bool :=
  match decompressSource handle with Some _ => true | None => false end.

(** Number of [gzip.NewReader] calls in a trace. *)
Definition constructions (l : list event) : nat :=
  List.length
    (filter (fun e => match e with call_gzip_NewReader => true | _ => false end)
            l).

(** No operation of the run switches to the decompressed mode. *)
Definition no_decompress_switch (ops : list op) : bool :=
  forallb (fun o => match o with
                    | op_SetReadMode mode =>
                      negb (N.eqb mode DecompressReadMode)
                    | _ => true
                    end) ops.

(** The first error among the closes of a trace. *)
Fixpoint first_error (l : list event) : option error :=
  match l with
  | [] => None
  | call_gzip_Close (Some e) :: _ => Some e
  | call_raw_Close (Some e) :: _ => Some e
  | _ :: l => first_error l
  end.

(** The round trip at one header and one payload: the payload is written from
    a reader of kind [ksrc] into an empty buffer, and the buffer's bytes are
    read back through a reader of kind [kdst]. *)
Definition roundtrip_at
    (gzip_stream : list byte -> list byte)
    (gzip_NewReader : Reader -> (error + gzipReader) * Reader)
    (gzip_pull : gzipReader -> nat -> Reader -> Reader)
    (ksrc kdst : reader_kind) (info : FileHeader) (B : list byte) : Prop :=
  exists nWritten container src' handle handle',
    WriteFile gzip_stream (Some (mkBuffer [])) info
              (Some (mkReader ksrc B false))
    = (nWritten, None, Some (mkBuffer container), src')
    /\ ReadFile gzip_NewReader (Some (mkReader kdst container false))
       = ([], Returns (Some handle, None))
    /\ Header handle = seconds_only info
    /\ SetReadMode gzip_NewReader handle DecompressReadMode
       = ([call_gzip_NewReader], Returns handle')
    /\ forall fuel, (List.length B < fuel)%nat ->
       exists handle'',
         ReadAll gzip_pull fuel handle'
         = Some ([], Returns (B, None, handle'')).

(** What the round trip asks of the collaborator: a reader opened on a
    source that holds the stream written for [P] delivers [P] and ends
    cleanly. *)
Definition gzip_inverse
    (gzip_stream : list byte -> list byte)
    (gzip_NewReader : Reader -> (error + gzipReader) * Reader) : Prop :=
  forall (r : Reader) (P : list byte),
    r_data r = gzip_stream P -> readable r = true ->
    exists r', gzip_NewReader r = (inr (mkGzipReader P None None), r').

(** The timestamp of a header comes back to the second from its encoding. *)
Definition timestamp_roundtrips (info : FileHeader) : Prop :=
  UploadDate
    (fst (ReadFileHeader_fields zeroFileHeader (NewBuffer (headerBytes info))))
  = time_Unix (Unix (UploadDate info)) 0.

(** ** A stand-in for [compress/gzip]

    It frames the payload with a ten-byte gzip member header and stores it
    as it is.  It instantiates the collaborator where the model is run on
    concrete inputs. *)
Module Stored.

Definition member_header : list byte :=
  [x1f; x8b; x08; x00; x00; x00; x00; x00; x00; xff].

Definition gzip_stream (B : list byte) : list byte := member_header ++ B.

Definition gzip_NewReader (src : Reader) : (error + gzipReader) * Reader :=
  let '(buf, n, err, src) := Read src (make 10) in
  match err with
  | Some e => (inl e, src)
  | None =>
    if n <? 10 then (inl io_ErrUnexpectedEOF, src)
    else if Byte.eqb (nth 0 buf x00) x1f && Byte.eqb (nth 1 buf x00) x8b
            && Byte.eqb (nth 2 buf x00) x08
         then (inr (mkGzipReader (r_data src) None None), set_data src [])
         else (inl gzip_ErrHeader, src)
  end.

Definition gzip_pull (z : gzipReader) (n : nat) (src : Reader) : Reader := src.

End Stored.

(** The header of the package's tests. *)
Definition testFileHeader : FileHeader :=
  mkFileHeader (time_Unix 1481834107 0) x01 "image/png" "Screenshot at todo".

(** ** Inputs the properties are run on *)

(** A header whose strings each fit their prefix, but whose encoding is
    65545 bytes long. *)
Definition long_mime_header : FileHeader :=
  mkFileHeader (time_Unix 1481834107 0) x01
               (string_of_list_byte (repeat x61 (Z.to_nat 65535))) "".

(** A time in the year 2286: its seconds are below [2 ^ 40], its nanoseconds
    are not in [int64]. *)
Definition year_2286_header : FileHeader :=
  mkFileHeader (time_Unix 10000000000 0) x01 "" "".

(** One second before the epoch. *)
Definition year_1969_header : FileHeader :=
  mkFileHeader (time_Unix (-1) 0) x01 "image/png" "Screenshot at todo".

(** Two zero bytes where the marker should be, a header length of ten, and
    ten zero bytes of header. *)
Definition zero_magic_container : list byte :=
  [x00; x00; x00; x0a; x00; x00; x00; x00; x00; x00; x00; x00; x00; x00].

(** A container cut one byte short of its declared header length of ten. *)
Definition truncated_container : list byte :=
  [xfa; xfa; x00; x0a; x00; x00; x00; x00; x01; x01; x00; x00; x00].

(** A handle whose decompressor is about to meet corrupt data, over a file. *)
Definition corrupt_handle : FileHandle :=
  mkFileHandle testFileHeader
    (Some (mkGzipReader [] (Some flate_CorruptInputError) None))
    (OpenFile []) src_decompress.

(** ** The value of a big-endian byte sequence *)

(** Most significant byte first: the arithmetic reading of what
    [writeNumber] writes and [readNumber] assembles. *)
Fixpoint big_endian (bs : list byte) : Z :=
  match bs with
  | [] => 0
  | b :: rest =>
    Z_of_byte b * 256 ^ Z.of_nat (List.length rest) + big_endian rest
  end.

(** ** [FileHandle.WriteTo]

    [defer handle.Close(); return io.Copy(w, handle)].  [*FileHandle] has a
    [WriteTo] method, and [io.Copy] hands the copy to the source's [WriteTo]
    when it has one: the copy is a call of [handle.WriteTo(w)] again.  [fuel]
    bounds the depth of the calls; [None] when it is used up. *)
Fixpoint FileHandle_WriteTo (fuel : nat) (handle : FileHandle) (w : Buffer)
  : option (eff (Z * option error * FileHandle * Buffer)) :=
  match fuel with
  | O => None
  | S fuel =>
    match FileHandle_WriteTo fuel handle w with
    | None => None
    | Some (l, Returns (n, err, handle, w)) =>
      match FileHandle_Close handle with
      | (l', Returns (_, handle)) =>
        Some (l ++ l', Returns (n, err, handle, w))
      | (l', Panics v) => Some (l ++ l', Panics v)
      end
    | Some (l, Panics v) =>
      match FileHandle_Close handle with
      | (l', Returns _) => Some (l ++ l', Panics v)
      | (l', Panics v') => Some (l ++ l', Panics v')
      end
    end
  end.

(** ** [CreateRandomFileName]

    [math/rand]'s global source is a parameter: [rand_Intn g n] is the number
    [rand.Intn(n)] draws from the source in state [g], and the source
    afterwards. *)

Definition charset : string := "abcdefghkmnoprstwxzABCDEFGHJKLMNPQRTWXY34689".

Section RandomName.

Variable rng : Type.
Variable rand_Intn : rng -> Z -> Z * rng.

(** [[]rune(charset)[i]]: [None] is the index-out-of-range panic. *)
Definition charset_at (i : Z) : option ascii :=
  if i <? 0 then None else String.get (Z.to_nat i) charset.

(** The calls of [CreateRandomFileName(length)] for [length >= 0], by the
    number of calls still to come; [None] for the name is a panic. *)
Fixpoint CreateRandomFileName_from (length : nat) (g : rng)
  : option string * rng :=
  match length with
  | O => (Some EmptyString, g)
  | S length' =>
    let '(i, g) := rand_Intn g (Z.of_nat (String.length charset)) in
    match charset_at i with
    | None => (None, g)
    | Some c =>
      match CreateRandomFileName_from length' g with
      | (Some rest, g) => (Some (String c rest), g)
      | (None, g) => (None, g)
      end
    end
  end.

Definition CreateRandomFileName (length : Z) (g : rng) : option string * rng :=
  if length <=? 0 then (Some EmptyString, g)
  else CreateRandomFileName_from (Z.to_nat length) g.

(** The source after [n] draws of [rand.Intn(len(charset))]. *)
Fixpoint draws (n : nat) (g : rng) : rng :=
  match n with
  | O => g
  | S n => draws n (snd (rand_Intn g (Z.of_nat (String.length charset))))
  end.

End RandomName.

Arguments CreateRandomFileName_from {rng} rand_Intn length g.
Arguments CreateRandomFileName {rng} rand_Intn length g.
Arguments draws {rng} rand_Intn n g.

(** [rand.Intn(n)] answers within [[0, n)]. *)
Definition Intn_in_range {rng : Type} (rand_Intn : rng -> Z -> Z * rng)
  : Prop :=
  forall (g : rng) (n : Z), 0 < n -> 0 <= fst (rand_Intn g n) < n.

(** A linear congruential source, to run the model on. *)
Definition lcg_Intn (g : Z) (n : Z) : Z * Z :=
  (g mod n, (g * 1103515245 + 12345) mod 2147483648).

(** ** The first revision of the reader

    The first part of [file.go]: [readNumber] reads byte by byte, and
    [ReadFile] opens the decompressor itself. *)
Module Legacy.

(** The loop of [readNumber]: [left] is [byteCount - i]; [singleByte] is the
    one-byte slice every iteration reads into. *)
Fixpoint readNumber_loop (left : nat) (singleByte : list byte) (inp : Reader)
    (number : Z) : Z * option error * Reader :=
  match left with
  | O => (number, None, inp)
  | S left' =>
    let '(singleByte, _, err, inp) := Read inp singleByte in
    match err with
    | Some e => (number, Some e, inp)
    | None =>
      readNumber_loop left' singleByte inp
        (Z.lor number
           (uint64 (Z.shiftl (Z_of_byte (nth 0 singleByte x00))
                             (8 * Z.of_nat left'))))
    end
  end.

Definition readNumber (byteCount : nat) (inp : Reader)
  : Z * option error * Reader :=
  readNumber_loop byteCount (make 1) inp 0.

Definition readLengthPrefixedString (inp : Reader)
  : string * Z * option error * Reader :=
  let '(length, err, inp) := readNumber 2 inp in
  match err with
  | Some e => (EmptyString, 0, Some e, inp)
  | None =>
    let '(stringBytes, _, err, inp) := Read inp (make (Z.to_nat length)) in
    match err with
    | Some e => (EmptyString, 0, Some e, inp)
    | None =>
      (string_of_list_byte stringBytes, int64 (2 + int64 length), None, inp)
    end
  end.

Definition ReadFileHeader_fields (header : FileHeader) (headerBuf : Reader)
  : FileHeader * option error :=
  let '(secondsTime, err, headerBuf) := readNumber 5 headerBuf in
  match err with Some e => (header, Some e) | None =>
  let header := set_UploadDate header (time_Unix (int64 secondsTime) 0) in
  let '(k, err, headerBuf) := ReadByte headerBuf in
  let header := set_ApiKeyID header k in
  match err with Some e => (header, Some e) | None =>
  let '(s, _, err, headerBuf) := readLengthPrefixedString headerBuf in
  let header := set_MimeType header s in
  match err with Some e => (header, Some e) | None =>
  let '(s, _, err, headerBuf) := readLengthPrefixedString headerBuf in
  let header := set_OriginalName header s in
  match err with Some e => (header, Some e) | None =>
  (header, None)
  end end end end.

Definition ReadFileHeader (src : Reader)
  : FileHeader * Z * option error * Reader :=
  let header := zeroFileHeader in
  let nRead := 0 in
  let '(twoBytes, n, err, src) := Read src (make 2) in
  match err with Some e => (header, nRead, Some e, src) | None =>
  let nRead := nRead + n in
  if negb (Byte.eqb (nth 0 twoBytes x00) (nth 1 twoBytes x00))
     && negb (Byte.eqb (nth 0 twoBytes x00) xfa)
  then (header, nRead, Some bad_magic, src)
  else
  let '(headerLength, err, src) := readNumber 2 src in
  match err with Some e => (header, nRead, Some e, src) | None =>
  let '(headerBytes, _, err, src) := Read src (make (Z.to_nat headerLength)) in
  match err with Some e => (header, nRead, Some e, src) | None =>
  let headerBuf := NewBuffer headerBytes in
  let '(header, err) := ReadFileHeader_fields header headerBuf in
  (header, nRead, err, src)
  end end end.

(** The handle of the first revision: [source] is the decompressor. *)
Record FileHandle : Type := mkFileHandle {
  Header : FileHeader;
  source : option gzipReader;
  rawSource : Reader
}.

(** [ReadFile(src)]: there is no nil check; a nil [src] is dereferenced by the
    first [Read]. *)
Definition ReadFile
    (gzip_NewReader : Reader -> (error + gzipReader) * Reader)
    (src : option Reader) : eff (option FileHandle * option error) :=
  match src with
  | None => ([], Panics nil_dereference)
  | Some src =>
    let '(header, _, err, src) := ReadFileHeader src in
    match err with
    | Some e => ret (Some (mkFileHandle header None src), Some e)
    | None =>
      match gzip_NewReader src with
      | (inl e, src) =>
        ([call_gzip_NewReader],
         Returns (Some (mkFileHandle header None src), Some e))
      | (inr gz, src) =>
        ([call_gzip_NewReader],
         Returns (Some (mkFileHandle header (Some gz) src), None))
      end
    end
  end.

End Legacy.

(** * Properties *)

(** ** Bytes *)

Lemma Z_of_byte_range (b : byte) : 0 <= Z_of_byte b < 256.
Proof.
  unfold Z_of_byte. pose proof (Byte.to_N_bounded b). lia.
Qed.

Lemma Z_of_byte_of_Z (z : Z) : Z_of_byte (byte_of_Z z) = z mod 256.
Proof.
  unfold byte_of_Z, Z_of_byte.
  pose proof (Z.mod_pos_bound z 256 ltac:(lia)) as Hb.
  destruct (Byte.of_N (Z.to_N (z mod 256))) eqn:E.
  - apply Byte.to_of_N in E. rewrite E. apply Z2N.id. lia.
  - apply Byte.of_N_None_iff in E. lia.
Qed.

Lemma byte_of_Z_of_byte (b : byte) : byte_of_Z (Z_of_byte b) = b.
Proof.
  unfold byte_of_Z. rewrite Z.mod_small by apply Z_of_byte_range.
  unfold Z_of_byte. rewrite N2Z.id, Byte.of_to_N. reflexivity.
Qed.

(** ** Big-endian numbers *)

Lemma length_writeNumber_loop (number : Z) (k : nat) :
  List.length (writeNumber_loop number k) = k.
Proof. induction k; simpl; congruence. Qed.

Lemma byte_at_shift (number : Z) (k : Z) :
  0 <= k ->
  Z.lor (Z.shiftl ((Z.shiftr number k) mod 2 ^ 8) k) (number mod 2 ^ k)
  = number mod 2 ^ (k + 8).
Proof.
  intros Hk. apply Z.bits_inj'. intros i Hi.
  rewrite Z.lor_spec, !Z.testbit_mod_pow2 by lia.
  destruct (Z.ltb_spec i k).
  - rewrite Z.shiftl_spec_low by lia. simpl.
    destruct (Z.ltb_spec i (k + 8)); [reflexivity | lia].
  - rewrite Z.shiftl_spec by lia. rewrite Z.testbit_mod_pow2 by lia.
    rewrite Z.shiftr_spec by lia. replace (i - k + k) with i by lia.
    rewrite orb_false_r.
    destruct (Z.ltb_spec (i - k) 8), (Z.ltb_spec i (k + 8));
      try lia; reflexivity.
Qed.

(** Reading back what [writeNumber] wrote gives the number modulo
    [2 ^ (8 * byteCount)]. *)
Lemma readNumber_loop_writeNumber_loop (number : Z) (k : nat) :
  (k <= 8)%nat ->
  forall acc,
  readNumber_loop (writeNumber_loop number k) acc
  = Z.lor acc (number mod 2 ^ (8 * Z.of_nat k)).
Proof.
  induction k as [|k IH]; intros Hk acc.
  - simpl. rewrite Z.mod_1_r, Z.lor_0_r. reflexivity.
  - cbn [writeNumber_loop readNumber_loop].
    rewrite length_writeNumber_loop, IH by lia.
    rewrite Z_of_byte_of_Z. change 256 with (2 ^ 8).
    unfold uint64. rewrite (Z.mod_small (Z.shiftl _ _)).
    + rewrite <- Z.lor_assoc. f_equal.
      rewrite byte_at_shift by lia. f_equal. f_equal. lia.
    + pose proof (Z.mod_pos_bound (Z.shiftr number (8 * Z.of_nat k)) (2 ^ 8)
                    ltac:(lia)) as Hb.
      rewrite Z.shiftl_mul_pow2 by lia.
      assert (2 ^ (8 * Z.of_nat k) <= 2 ^ 56)
        by (apply Z.pow_le_mono_r; lia).
      assert (0 < 2 ^ (8 * Z.of_nat k)) by (apply Z.pow_pos_nonneg; lia).
      change (2 ^ 64) with (2 ^ 8 * 2 ^ 56). nia.
Qed.

Lemma read_written_number (number : Z) (k : nat) :
  (k <= 8)%nat ->
  readNumber_loop (writeNumber_loop number k) 0
  = number mod 2 ^ (8 * Z.of_nat k).
Proof.
  intros Hk. rewrite readNumber_loop_writeNumber_loop by exact Hk.
  apply Z.lor_0_l.
Qed.

(** ** Reads *)

Lemma length_make (n : nat) : List.length (make n) = n.
Proof. apply repeat_length. Qed.

Lemma copy_prefix (p a rest : list byte) :
  List.length p = List.length a -> copy p (a ++ rest) = a.
Proof.
  intros Hl. unfold copy. rewrite Hl, firstn_app, firstn_all.
  replace (List.length a - List.length a)%nat with 0%nat by lia.
  rewrite (skipn_all2 p) by (rewrite length_app; lia).
  simpl. rewrite !app_nil_r. reflexivity.
Qed.

(** A read of exactly the bytes [a] at the front of the data. *)
Lemma Read_prefix (r : Reader) (a rest : list byte) :
  r_data r = a ++ rest -> a <> [] -> readable r = true ->
  Read r (make (List.length a))
  = (a, Z.of_nat (List.length a), None, set_data r rest).
Proof.
  intros Hd Ha Hr. unfold Read, readable in *.
  assert (Hs : skipn (Nat.min (List.length (make (List.length a)))
                              (List.length (a ++ rest))) (a ++ rest) = rest).
  { rewrite length_make, length_app, Nat.min_l by lia.
    rewrite skipn_app, skipn_all, Nat.sub_diag. reflexivity. }
  assert (Hn : Nat.min (List.length (make (List.length a)))
                       (List.length (a ++ rest)) = List.length a).
  { rewrite length_make, length_app. lia. }
  destruct a as [|x a]; [congruence|].
  destruct (r_kind r), (r_closed r); try discriminate; rewrite Hd;
    cbn [app]; change (x :: a ++ rest) with ((x :: a) ++ rest);
    rewrite Hs, Hn, copy_prefix by (apply length_make); reflexivity.
Qed.

(** A read into no room, on a [bytes.Buffer]. *)
Lemma Read_nothing (r : Reader) :
  r_kind r = BytesBuffer -> Read r (make 0) = ([], 0, None, r).
Proof.
  intros Hk. unfold Read. rewrite Hk. destruct r as [k d c]. simpl in *.
  destruct d; reflexivity.
Qed.

Lemma readNumber_written (r : Reader) (number : Z) (k : nat)
    (rest : list byte) :
  r_data r = writeNumber_loop number k ++ rest ->
  (0 < k <= 8)%nat -> readable r = true ->
  readNumber k r = (number mod 2 ^ (8 * Z.of_nat k), None, set_data r rest).
Proof.
  intros Hd Hk Hr. unfold readNumber.
  rewrite <- (length_writeNumber_loop number k) at 1.
  rewrite (Read_prefix r _ rest Hd); [| | exact Hr].
  - rewrite read_written_number by lia. reflexivity.
  - destruct k; [lia | discriminate].
Qed.

Lemma readable_set_data (r : Reader) (d : list byte) :
  readable (set_data r d) = readable r.
Proof. reflexivity. Qed.

Lemma set_data_set_data (r : Reader) (d d' : list byte) :
  set_data (set_data r d) d' = set_data r d'.
Proof. reflexivity. Qed.

(** ** Length-prefixed strings *)

Lemma readLengthPrefixedString_written (r : Reader) (str : string)
    (rest : list byte) :
  r_kind r = BytesBuffer ->
  r_data r = writeLengthPrefixedString_bytes str ++ rest ->
  Z.of_nat (List.length (list_byte_of_string str)) <= 65535 ->
  readLengthPrefixedString r
  = (str, 2 + Z.of_nat (List.length (list_byte_of_string str)), None,
     set_data r rest).
Proof.
  intros Hk Hd Hl. unfold readLengthPrefixedString.
  unfold writeLengthPrefixedString_bytes in Hd. rewrite <- app_assoc in Hd.
  assert (Hr : readable r = true) by (unfold readable; rewrite Hk; reflexivity).
  rewrite (readNumber_written r _ 2 _ Hd) by (lia || exact Hr).
  set (n := Z.of_nat (List.length (list_byte_of_string str))) in *.
  assert (Hn : uint n mod 2 ^ (8 * Z.of_nat 2) = n).
  { unfold uint. change (2 ^ (8 * Z.of_nat 2)) with 65536.
    rewrite (Z.mod_small n (2 ^ 64)) by lia. apply Z.mod_small. lia. }
  rewrite Hn. unfold n at 1. rewrite Nat2Z.id.
  destruct (list_byte_of_string str) as [|c cs] eqn:Hs.
  - rewrite Read_nothing by exact Hk.
    replace str with EmptyString
      by (rewrite <- (string_of_list_byte_of_string str), Hs; reflexivity).
    destruct r; reflexivity.
  - rewrite (Read_prefix (set_data r ((c :: cs) ++ rest)) (c :: cs) rest)
      by (reflexivity || discriminate || exact Hr).
    rewrite <- Hs, string_of_list_byte_of_string. rewrite Hs.
    assert (Hi : int64 (2 + int64 n) = 2 + n).
    { unfold int64. rewrite (Z.mod_small (n + 2 ^ 63)) by lia.
      rewrite Z.mod_small by lia. lia. }
    rewrite Hi. reflexivity.
Qed.

(** ** The header *)

Lemma length_wire_header (seconds : Z) (key : byte) (mime name : string) :
  Z.of_nat (List.length (wire_header seconds key mime name))
  = 10 + Z.of_nat (List.length (list_byte_of_string mime))
       + Z.of_nat (List.length (list_byte_of_string name)).
Proof.
  unfold wire_header, writeLengthPrefixedString_bytes.
  rewrite !length_app, !length_writeNumber_loop. simpl List.length. lia.
Qed.

Lemma wire_fits_strings_fit (mime name : string) :
  wire_fits mime name -> strings_fit mime name.
Proof. unfold wire_fits, strings_fit. lia. Qed.

Lemma int64_small (z : Z) : 0 <= z < 2 ^ 63 -> int64 z = z.
Proof.
  intros Hz. unfold int64.
  change (2 ^ 63) with 9223372036854775808 in *.
  change (2 ^ 64) with 18446744073709551616.
  rewrite Z.mod_small by lia. lia.
Qed.

(** Decoding the fields of a header: the five timestamp bytes come back as
    they were stored, the key and the strings as they were given. *)
Lemma ReadFileHeader_fields_wire (h0 : FileHeader) (seconds : Z) (key : byte)
    (mime name : string) :
  strings_fit mime name ->
  ReadFileHeader_fields h0 (NewBuffer (wire_header seconds key mime name))
  = (mkFileHeader (time_Unix (seconds mod 2 ^ 40) 0) key mime name, None).
Proof.
  intros [Hm Hn].
  unfold ReadFileHeader_fields, wire_header.
  rewrite (readNumber_written (NewBuffer _) _ 5 _ eq_refl)
    by (lia || reflexivity).
  change (2 ^ (8 * Z.of_nat 5)) with (2 ^ 40).
  unfold NewBuffer, set_data, ReadByte. cbn [r_kind r_data r_closed app].
  unfold set_data. cbn [r_kind r_data r_closed].
  rewrite (readLengthPrefixedString_written (mkReader BytesBuffer _ false)
             mime (writeLengthPrefixedString_bytes name) eq_refl eq_refl)
    by lia.
  unfold set_data. cbn [r_kind r_data r_closed].
  rewrite (readLengthPrefixedString_written (mkReader BytesBuffer _ false)
             name [] eq_refl)
    by (cbn [r_data]; rewrite ?app_nil_r; reflexivity || lia).
  unfold set_UploadDate, set_ApiKeyID, set_MimeType, set_OriginalName.
  cbn [UploadDate ApiKeyID MimeType OriginalName].
  rewrite int64_small; [reflexivity|].
  pose proof (Z.mod_pos_bound seconds (2 ^ 40) ltac:(lia)) as Hb.
  change (2 ^ 40) with 1099511627776 in *.
  change (2 ^ 63) with 9223372036854775808. lia.
Qed.

(** The seconds [WriteFile] stores are those of the timestamp, when its
    nanoseconds since the epoch are representable and not negative. *)
Lemma stored_seconds_exact (info : FileHeader) :
  nano_representable (UploadDate info) ->
  stored_seconds info = Unix (UploadDate info)
  /\ 0 <= Unix (UploadDate info) < 2 ^ 40.
Proof.
  intros (Hs & Hn & Hb). unfold stored_seconds, UnixNano, Unix, uint.
  rewrite int64_small by lia.
  change (2 ^ 63) with 9223372036854775808 in Hb.
  change (2 ^ 64) with 18446744073709551616.
  change (2 ^ 40) with 1099511627776.
  rewrite Z.quot_div_nonneg by lia.
  rewrite Z.div_add_l by lia. rewrite (Z.div_small (t_nsec _)) by lia.
  rewrite Z.add_0_r. split; [apply Z.mod_small|]; lia.
Qed.

Lemma ReadFileHeader_fields_headerBytes (h0 info : FileHeader) :
  nano_representable (UploadDate info) ->
  strings_fit (MimeType info) (OriginalName info) ->
  ReadFileHeader_fields h0 (NewBuffer (headerBytes info))
  = (seconds_only info, None).
Proof.
  intros Ht Hf. unfold headerBytes.
  rewrite ReadFileHeader_fields_wire by exact Hf.
  destruct (stored_seconds_exact info Ht) as [-> Hb].
  rewrite Z.mod_small by exact Hb.
  destruct info. reflexivity.
Qed.

(** The framing of [ReadFileHeader]: two leading bytes that pass the check,
    a length, and as many header bytes, handed to the decoding of the
    fields. *)
Lemma ReadFileHeader_split (r : Reader) (m0 m1 : byte) (n : Z)
    (a rest : list byte) :
  r_data r = [m0; m1] ++ writeNumber_loop n 2 ++ a ++ rest ->
  readable r = true ->
  magic_accepted m0 m1 ->
  a <> [] ->
  Z.of_nat (List.length a) = n mod 2 ^ 16 ->
  ReadFileHeader r
  = (fst (ReadFileHeader_fields zeroFileHeader (NewBuffer a)), 2,
     snd (ReadFileHeader_fields zeroFileHeader (NewBuffer a)),
     set_data r rest).
Proof.
  intros Hd Hr Hm Ha Hn. unfold ReadFileHeader.
  assert (H2 := Read_prefix r [m0; m1] _ Hd ltac:(discriminate) Hr).
  cbn [List.length] in H2. rewrite H2. cbn [nth].
  assert (Hc : negb (Byte.eqb m0 m1) && negb (Byte.eqb m0 xfa) = false).
  { destruct Hm as [-> | ->].
    - rewrite (Byte.byte_dec_lb eq_refl). reflexivity.
    - apply andb_false_r. }
  rewrite Hc.
  rewrite (readNumber_written (set_data r _) _ 2 _ eq_refl)
    by (lia || exact Hr).
  rewrite set_data_set_data.
  change (2 ^ (8 * Z.of_nat 2)) with (2 ^ 16). rewrite <- Hn, Nat2Z.id.
  rewrite (Read_prefix (set_data r _) a rest eq_refl) by assumption.
  rewrite set_data_set_data.
  destruct (ReadFileHeader_fields zeroFileHeader (NewBuffer a)) as [h e].
  reflexivity.
Qed.

(** Reading a frame: the two leading bytes only have to pass the check. *)
Lemma ReadFileHeader_wire (r : Reader) (m0 m1 : byte) (seconds : Z)
    (key : byte) (mime name : string) (trailing : list byte) :
  r_data r
  = wire_frame m0 m1 (wire_header seconds key mime name) ++ trailing ->
  readable r = true ->
  magic_accepted m0 m1 ->
  wire_fits mime name ->
  ReadFileHeader r
  = (mkFileHeader (time_Unix (seconds mod 2 ^ 40) 0) key mime name,
     2, None, set_data r trailing).
Proof.
  intros Hd Hr Hm Hf.
  unfold wire_frame in Hd. rewrite <- !app_assoc in Hd.
  pose proof (length_wire_header seconds key mime name) as Hl.
  unfold wire_fits in Hf.
  rewrite (ReadFileHeader_split r m0 m1 _ _ trailing Hd Hr Hm).
  - rewrite ReadFileHeader_fields_wire
      by (apply wire_fits_strings_fit; exact Hf).
    reflexivity.
  - intros E. rewrite E in Hl. cbn [List.length] in Hl. lia.
  - unfold uint. change (2 ^ 16) with 65536.
    rewrite (Z.mod_small _ (2 ^ 64)) by lia. symmetry. apply Z.mod_small. lia.
Qed.

Lemma ReadFileHeader_frame (r : Reader) (info : FileHeader)
    (trailing : list byte) :
  r_data r = frame info ++ trailing ->
  readable r = true ->
  nano_representable (UploadDate info) ->
  header_fits info ->
  ReadFileHeader r = (seconds_only info, 2, None, set_data r trailing).
Proof.
  intros Hd Hr Ht Hf.
  rewrite (ReadFileHeader_wire r xfa xfa _ _ _ _ trailing Hd Hr)
    by (exact Hf || (right; reflexivity)).
  destruct (stored_seconds_exact info Ht) as [-> Hb].
  rewrite Z.mod_small by exact Hb.
  destruct info. reflexivity.
Qed.

Section Properties.

Variable gzip_stream : list byte -> list byte.
Variable gzip_NewReader : Reader -> (error + gzipReader) * Reader.
Variable gzip_pull : gzipReader -> nat -> Reader -> Reader.

(** ** What [WriteFile] writes and what it counts *)

Lemma WriteFile_spec (dst : Buffer) (info : FileHeader) (src : Reader) :
  WriteFile gzip_stream (Some dst) info (Some src)
  = let '(copied, err, src') := io_Copy_source src in
    (match err with
     | Some _ => 4 + Z.of_nat (List.length (headerBytes info))
     | None => 4 + Z.of_nat (List.length (headerBytes info))
                 + Z.of_nat (List.length copied)
     end,
     err,
     Some (mkBuffer (b_bytes dst ++ frame info ++ gzip_stream copied)),
     Some src').
Proof.
  unfold WriteFile, writeNumber, writeLengthPrefixedString,
    writeLengthPrefixedString_bytes, WriteTo.
  cbn [writeNumber_loop app]. unfold Write.
  cbn [writeNumber_loop app b_bytes List.length].
  destruct (io_Copy_source src) as [[copied err] src'].
  unfold frame, wire_frame, headerBytes, wire_header, stored_seconds,
    writeLengthPrefixedString_bytes.
  cbn [writeNumber_loop app b_bytes List.length].
  repeat (rewrite <- app_assoc; cbn [app]).
  rewrite ?length_app. cbn [List.length]. rewrite ?length_app.
  cbn [List.length].
  destruct err; do 3 (f_equal; try reflexivity); lia.
Qed.

(** ** Reading a frame back *)

Lemma ReadFile_frame (r : Reader) (info : FileHeader) (trailing : list byte) :
  r_data r = frame info ++ trailing ->
  readable r = true ->
  nano_representable (UploadDate info) ->
  header_fits info ->
  ReadFile gzip_NewReader (Some r)
  = ([], Returns (Some (raw_handle (seconds_only info) (set_data r trailing)),
                  None)).
Proof.
  intros Hd Hr Ht Hf. unfold ReadFile.
  rewrite (ReadFileHeader_frame r info trailing) by assumption.
  reflexivity.
Qed.

(** ** Reading to the end *)

Lemma firstn_copy_make (n : nat) (d : list byte) :
  firstn (Nat.min (List.length (make n)) (List.length d)) (copy (make n) d)
  = firstn n d.
Proof.
  unfold copy. rewrite length_make.
  rewrite firstn_app, length_firstn.
  replace (Nat.min n (List.length d) - Nat.min n (List.length d))%nat
    with 0%nat by lia.
  cbn [firstn]. rewrite app_nil_r.
  apply firstn_all2. rewrite length_firstn. lia.
Qed.

Lemma firstn_skipn_min (m : nat) (l : list byte) :
  firstn m l ++ skipn (Nat.min m (List.length l)) l = l.
Proof.
  destruct (Nat.le_gt_cases m (List.length l)).
  - rewrite Nat.min_l by lia. apply firstn_skipn.
  - rewrite Nat.min_r by lia.
    rewrite firstn_all2, skipn_all by lia. apply app_nil_r.
Qed.

(** In raw mode, [ReadAll] returns the bytes the raw source still holds, and
    calls nothing of the decompressor. *)
Lemma ReadAll_raw (fuel : nat) :
  forall (info : FileHeader) (z : option gzipReader) (raw : Reader),
  readable raw = true ->
  (List.length (r_data raw) < fuel)%nat ->
  ReadAll gzip_pull fuel (mkFileHandle info z raw src_raw)
  = Some ([], Returns (r_data raw, None,
                       mkFileHandle info z (set_data raw []) src_raw)).
Proof.
  induction fuel as [|fuel IH]; intros info z raw Hr Hl; [lia|].
  cbn [ReadAll]. unfold FileHandle_Read.
  cbn [currentSource rawSource]. unfold Read.
  destruct raw as [k d c]. unfold readable in Hr.
  cbn [r_kind r_closed r_data] in *.
  destruct d as [|x d].
  - destruct k, c; try discriminate; reflexivity.
  - set (n := Nat.min (List.length (make MinRead)) (List.length (x :: d))).
    assert (Hn : (1 <= n)%nat).
    { unfold n. rewrite length_make. cbn [List.length]. unfold MinRead. lia. }
    assert (Hstep :
      ReadAll gzip_pull fuel
        (mkFileHandle info z (mkReader k (skipn n (x :: d)) c) src_raw)
      = Some ([], Returns (skipn n (x :: d), None,
                           mkFileHandle info z (mkReader k [] c) src_raw))).
    { apply (IH info z (mkReader k (skipn n (x :: d)) c)).
      - exact Hr.
      - cbn [r_data]. rewrite length_skipn. cbn [List.length] in *. lia. }
    destruct k, c; try discriminate;
      unfold set_rawSource, set_data, ret;
      cbn [Header decompressSource rawSource currentSource r_kind r_data
           r_closed];
      fold n; rewrite Hstep; cbn [app];
      rewrite Nat2Z.id; unfold n at 1; rewrite firstn_copy_make;
      unfold n; rewrite length_make, firstn_skipn_min; reflexivity.
Qed.

Lemma ReadFile_wire (r : Reader) (m0 m1 : byte) (seconds : Z) (key : byte)
    (mime name : string) (trailing : list byte) :
  r_data r
  = wire_frame m0 m1 (wire_header seconds key mime name) ++ trailing ->
  readable r = true ->
  magic_accepted m0 m1 ->
  wire_fits mime name ->
  ReadFile gzip_NewReader (Some r)
  = ([], Returns
           (Some (raw_handle
                    (mkFileHeader (time_Unix (seconds mod 2 ^ 40) 0) key mime
                                  name)
                    (set_data r trailing)),
            None)).
Proof.
  intros Hd Hr Hm Hf. unfold ReadFile.
  rewrite (ReadFileHeader_wire r m0 m1 seconds key mime name trailing)
    by assumption.
  reflexivity.
Qed.

(** In decompressed mode, [ReadAll] returns what the decompressor has still
    to deliver, when its stream ends cleanly. *)
Lemma ReadAll_decompress (fuel : nat) :
  forall (info : FileHeader) (out : list byte) (raw : Reader),
  (List.length out < fuel)%nat ->
  exists raw',
    ReadAll gzip_pull fuel
      (mkFileHandle info (Some (mkGzipReader out None None)) raw
                    src_decompress)
    = Some ([], Returns (out, None,
                         mkFileHandle info
                           (Some (mkGzipReader [] None (Some io_EOF))) raw'
                           src_decompress)).
Proof.
  induction fuel as [|fuel IH]; intros info out raw Hl; [lia|].
  cbn [ReadAll]. unfold FileHandle_Read.
  cbn [currentSource decompressSource rawSource Header]. unfold gzip_Read.
  cbn [z_err z_out z_fin].
  destruct out as [|x out].
  - eexists. reflexivity.
  - set (n := Nat.min (List.length (make MinRead)) (List.length (x :: out))).
    assert (Hn : (1 <= n)%nat).
    { unfold n. rewrite length_make. cbn [List.length]. unfold MinRead. lia. }
    destruct (IH info (skipn n (x :: out))
                 (gzip_pull (mkGzipReader (x :: out) None None)
                            (List.length (make MinRead)) raw))
      as [raw' Hstep].
    { rewrite length_skipn. cbn [List.length] in *. lia. }
    exists raw'. unfold ret. rewrite Hstep. cbn [app].
    rewrite Nat2Z.id. unfold n at 1. rewrite firstn_copy_make.
    unfold n. rewrite length_make, firstn_skipn_min. reflexivity.
Qed.

(** ** Mode switches and the one decompressor *)

Lemma constructions_app (l l' : list event) :
  constructions (l ++ l') = (constructions l + constructions l')%nat.
Proof. unfold constructions. rewrite filter_app. apply length_app. Qed.

(** One step: a built decompressor stays and nothing is constructed; without
    one, at most one construction, after which the decompressor is built. *)
Lemma step_constructions (o : op) (handle : FileHandle) :
  (constructions (trace (step gzip_NewReader gzip_pull o handle))
   <= if built handle then 0 else 1)%nat
  /\ forall handle',
     result (step gzip_NewReader gzip_pull o handle) = Returns handle' ->
     (built handle = true -> built handle' = true)
     /\ (constructions (trace (step gzip_NewReader gzip_pull o handle)) = 1%nat
         -> built handle' = true).
Proof.
  destruct handle as [info z raw cur]. unfold built.
  destruct o as [mode | room |]; cbn [step].
  - unfold SetReadMode. cbn [decompressSource rawSource Header].
    destruct (N.eqb mode DecompressReadMode).
    + destruct z as [z|].
      * cbn. split; [lia|]. intros h' [= <-]. cbn. split; [auto | discriminate].
      * destruct (gzip_NewReader raw) as [[e|d] raw']; cbn.
        -- split; [lia|]. intros h' [=].
        -- split; [lia|]. intros h' [= <-]. cbn. split; auto.
    + destruct (N.eqb mode RawReadMode); cbn.
      * split; [destruct z; lia|]. intros h' [= <-]. cbn.
        split; [auto | discriminate].
      * split; [destruct z; lia|]. intros h' [=].
  - unfold FileHandle_Read. cbn [currentSource decompressSource rawSource].
    destruct cur.
    + cbn. split; [destruct z; lia|]. intros h' [=].
    + destruct (Read raw (make room)) as [[[p n] err] raw']. cbn.
      split; [destruct z; lia|]. intros h' [= <-]. cbn.
      split; [auto | discriminate].
    + destruct z as [z|].
      * destruct (gzip_Read z (make room)) as [[[p n] err] z']. cbn.
        split; [lia|]. intros h' [= <-]. cbn. split; [auto | discriminate].
      * cbn. split; [lia|]. intros h' [=].
  - unfold FileHandle_Close. cbn [decompressSource rawSource].
    destruct z as [z|].
    + destruct (Closer raw) as [[err raw']|]; cbn.
      * split; [lia|]. intros h' [= <-]. cbn. split; [auto | discriminate].
      * split; [lia|]. intros h' [= <-]. cbn. split; [auto | discriminate].
    + cbn. split; [lia|]. intros h' [=].
Qed.

(** Over a whole run of a handle. *)
Lemma run_constructions (ops : list op) :
  forall handle : FileHandle,
  (constructions (trace (run gzip_NewReader gzip_pull ops handle))
   <= if built handle then 0 else 1)%nat.
Proof.
  induction ops as [|o ops IH]; intros handle.
  - cbn. destruct (built handle); lia.
  - cbn [run]. destruct (step_constructions o handle) as [Hle Hb].
    destruct (step gzip_NewReader gzip_pull o handle) as [l [h'|v]] eqn:Es;
      unfold bind; cbn [trace result fst snd] in *.
    + specialize (IH h'). destruct (Hb h' eq_refl) as [Hkeep Hnew].
      destruct (run gzip_NewReader gzip_pull ops h') as [l' r'].
      cbn [trace fst] in *. rewrite constructions_app.
      destruct (built handle).
      * rewrite (Hkeep eq_refl) in IH. lia.
      * destruct (built h'); [lia|].
        destruct (Nat.eq_dec (constructions l) 1) as [E|E];
          [specialize (Hnew E); discriminate | lia].
    + exact Hle.
Qed.

(** Without a switch to the decompressed mode, a run constructs nothing. *)
Lemma raw_runs_construct_nothing (ops : list op) :
  forall handle : FileHandle,
  no_decompress_switch ops = true ->
  constructions (trace (run gzip_NewReader gzip_pull ops handle)) = 0%nat.
Proof.
  induction ops as [|o ops IH]; intros handle Hops; [reflexivity|].
  cbn [no_decompress_switch forallb] in Hops.
  apply andb_true_iff in Hops. destruct Hops as [Ho Hops].
  cbn [run].
  assert (Hs : constructions
                 (trace (step gzip_NewReader gzip_pull o handle)) = 0%nat).
  { destruct handle as [info z raw cur].
    destruct o as [mode | room |]; cbn [step].
    - unfold SetReadMode. apply negb_true_iff in Ho. rewrite Ho.
      destruct (N.eqb mode RawReadMode); reflexivity.
    - unfold FileHandle_Read. cbn [currentSource decompressSource rawSource].
      destruct cur; [reflexivity | |].
      + destruct (Read raw (make room)) as [[[p n] err] raw']. reflexivity.
      + destruct z as [z|]; [|reflexivity].
        destruct (gzip_Read z (make room)) as [[[p n] err] z']. reflexivity.
    - unfold FileHandle_Close. cbn [decompressSource rawSource].
      destruct z as [z|]; [|reflexivity].
      destruct (Closer raw) as [[err raw']|]; reflexivity. }
  destruct (step gzip_NewReader gzip_pull o handle) as [l [h'|v]];
    unfold bind; cbn [trace fst] in *.
  - specialize (IH h' Hops).
    destruct (run gzip_NewReader gzip_pull ops h') as [l' r'].
    cbn [trace fst] in *. rewrite constructions_app. lia.
  - exact Hs.
Qed.

(** ** The claims that hold for every decompressor *)

(** C1 (amended).  For every header whose encoding fits the two-byte header
    length (10 + len(mime) + len(name) <= 65535) and whose timestamp lies
    between the epoch and the end of the [int64] nanosecond range, and every
    byte sequence [B]: [WriteFile] into an empty buffer succeeds, [ReadFile]
    on the bytes written returns a handle whose header is the one written
    with the timestamp cut to whole seconds, and after
    [SetReadMode(DecompressReadMode)] reading the handle to its end yields
    exactly [B] -- given that the decompressor inverts the compressor. *)
Theorem WriteFile_ReadFile_roundtrip (ksrc kdst : reader_kind)
    (info : FileHeader) (B : list byte) :
  gzip_inverse gzip_stream gzip_NewReader ->
  header_fits info ->
  nano_representable (UploadDate info) ->
  roundtrip_at gzip_stream gzip_NewReader gzip_pull ksrc kdst info B.
Proof.
  intros Hgz Hf Ht. unfold roundtrip_at.
  pose (raw := mkReader kdst (gzip_stream B) false).
  destruct (Hgz raw B eq_refl) as [raw' Hopen].
  { destruct kdst; reflexivity. }
  exists (4 + Z.of_nat (List.length (headerBytes info))
            + Z.of_nat (List.length B)),
         (frame info ++ gzip_stream B),
         (Some (mkReader ksrc [] false)),
         (raw_handle (seconds_only info) raw),
         (mkFileHandle (seconds_only info) (Some (mkGzipReader B None None))
                       raw' src_decompress).
  split; [|split; [|split; [|split]]].
  - rewrite WriteFile_spec. destruct ksrc; reflexivity.
  - apply (ReadFile_frame (mkReader kdst _ false) info (gzip_stream B));
      [reflexivity | destruct kdst; reflexivity | exact Ht | exact Hf].
  - reflexivity.
  - unfold SetReadMode, raw_handle.
    cbn [N.eqb DecompressReadMode decompressSource rawSource Header].
    rewrite Hopen. reflexivity.
  - intros fuel Hfuel.
    destruct (ReadAll_decompress fuel (seconds_only info) B raw' Hfuel)
      as [raw'' Hall].
    eexists. exact Hall.
Qed.

(** C3 (the code at issue).  [WriteFile] adds to its count the bytes
    [io.Copy] took from the source -- the uncompressed payload -- while the
    destination receives the compressed stream: the count is
    [4 + len(header) + len(B)], the bytes written are
    [4 + len(header) + len(gzip_stream B)]. *)
Theorem WriteFile_counts_uncompressed (k : reader_kind) (dst : Buffer)
    (info : FileHeader) (B : list byte) :
  exists dst',
    WriteFile gzip_stream (Some dst) info (Some (mkReader k B false))
    = (4 + Z.of_nat (List.length (headerBytes info))
         + Z.of_nat (List.length B),
       None, Some dst', Some (mkReader k [] false))
    /\ Z.of_nat (List.length (b_bytes dst'))
       - Z.of_nat (List.length (b_bytes dst))
       = 4 + Z.of_nat (List.length (headerBytes info))
           + Z.of_nat (List.length (gzip_stream B)).
Proof.
  exists (mkBuffer (b_bytes dst ++ frame info ++ gzip_stream B)). split.
  - rewrite WriteFile_spec. destruct k; reflexivity.
  - cbn [b_bytes]. unfold frame, wire_frame.
    rewrite !length_app, length_writeNumber_loop. cbn [List.length]. lia.
Qed.

(** C4 (amended).  When the decompressor rejects the leading bytes of the raw
    source, the first [SetReadMode(DecompressReadMode)] fails at once, at the
    call of [SetReadMode] and not at a later read: it panics with the
    decompressor's error ([SetReadMode] has no error result). *)
Theorem SetReadMode_failure_panics (handle : FileHandle) (e : error)
    (raw' : Reader) :
  decompressSource handle = None ->
  gzip_NewReader (rawSource handle) = (inl e, raw') ->
  SetReadMode gzip_NewReader handle DecompressReadMode
  = ([call_gzip_NewReader], Panics (panic_error e)).
Proof.
  intros Hnone Hopen. unfold SetReadMode.
  cbn [N.eqb DecompressReadMode]. rewrite Hnone, Hopen. reflexivity.
Qed.

(** C7.  At most one decompressor is constructed over any run of a handle,
    and none once one is there; two switches to the decompressed mode in a
    row call [gzip.NewReader] once; with a decompressor [z] built, a switch
    to either mode leaves [z] and the raw source as they are, so that a
    switch to the raw mode keeps it, a switch back finds it, and a read after
    a repeated switch to the decompressed mode is the read that would have
    come without it: after a first read of [n] bytes and a second switch,
    reading to the end yields the stream from its byte [n] on. *)
Theorem one_decompressor (ops : list op) (handle : FileHandle)
    (info : FileHeader) (z : gzipReader) (raw : Reader) (cur : source_ref)
    (p : list byte) (x : byte) (out : list byte) :
  (constructions (trace (run gzip_NewReader gzip_pull ops handle))
   <= if built handle then 0 else 1)%nat
  /\ constructions
       (trace (run gzip_NewReader gzip_pull
                   [op_SetReadMode DecompressReadMode;
                    op_SetReadMode DecompressReadMode]
                   (mkFileHandle info None raw cur))) = 1%nat
  /\ SetReadMode gzip_NewReader (mkFileHandle info (Some z) raw cur)
                 DecompressReadMode
     = ([], Returns (mkFileHandle info (Some z) raw src_decompress))
  /\ SetReadMode gzip_NewReader (mkFileHandle info (Some z) raw cur)
                 RawReadMode
     = ([], Returns (mkFileHandle info (Some z) raw src_raw))
  /\ run gzip_NewReader gzip_pull
         [op_SetReadMode RawReadMode; op_SetReadMode DecompressReadMode]
         (mkFileHandle info (Some z) raw src_decompress)
     = ([], Returns (mkFileHandle info (Some z) raw src_decompress))
  /\ bind (SetReadMode gzip_NewReader
             (mkFileHandle info (Some z) raw src_decompress)
             DecompressReadMode)
          (fun h => FileHandle_Read gzip_pull h p)
     = FileHandle_Read gzip_pull
         (mkFileHandle info (Some z) raw src_decompress) p
  /\ exists h1 h2,
       FileHandle_Read gzip_pull
         (mkFileHandle info (Some (mkGzipReader (x :: out) None None)) raw
                       src_decompress) p
       = ([], Returns (copy p (x :: out),
                       Z.of_nat (Nat.min (List.length p)
                                         (List.length (x :: out))),
                       None, h1))
       /\ SetReadMode gzip_NewReader h1 DecompressReadMode
          = ([], Returns h1)
       /\ ReadAll gzip_pull (S (List.length (x :: out))) h1
          = Some ([], Returns (skipn (Nat.min (List.length p)
                                              (List.length (x :: out)))
                                     (x :: out),
                               None, h2)).
Proof.
  split; [apply run_constructions|].
  split.
  { cbn [run step]. unfold SetReadMode at 1.
    cbn [N.eqb DecompressReadMode decompressSource rawSource Header].
    destruct (gzip_NewReader raw) as [[e|d] raw']; reflexivity. }
  split; [reflexivity|]. split; [reflexivity|]. split; [reflexivity|].
  split.
  { unfold SetReadMode, bind, ret, set_currentSource.
    cbn [N.eqb DecompressReadMode decompressSource rawSource Header].
    destruct (FileHandle_Read gzip_pull
                (mkFileHandle info (Some z) raw src_decompress) p)
      as [l r]. reflexivity. }
  set (n := Nat.min (List.length p) (List.length (x :: out))).
  destruct (ReadAll_decompress (S (List.length (x :: out))) info
              (skipn n (x :: out))
              (gzip_pull (mkGzipReader (x :: out) None None) (List.length p)
                         raw))
    as [raw' Hall].
  { rewrite length_skipn. lia. }
  eexists. eexists. split; [reflexivity|]. split; [reflexivity|].
  exact Hall.
Qed.

(** C8.  For every well-formed container -- marker, header length, header,
    then any trailing bytes -- [ReadFile] returns, without a call to the
    decompressor, a handle in the raw mode with no decompressor, whose raw
    source stands at the trailing bytes; no run of the handle constructs a
    decompressor unless it switches to the decompressed mode; reading the
    handle to its end yields exactly the trailing bytes, still without a
    decompressor. *)
Theorem lazy_decompression (r : Reader) (seconds : Z) (key : byte)
    (mime name : string) (trailing : list byte) :
  r_data r
  = wire_frame xfa xfa (wire_header seconds key mime name) ++ trailing ->
  readable r = true ->
  wire_fits mime name ->
  exists handle,
    ReadFile gzip_NewReader (Some r) = ([], Returns (Some handle, None))
    /\ currentSource handle = src_raw
    /\ decompressSource handle = None
    /\ r_data (rawSource handle) = trailing
    /\ (forall ops, no_decompress_switch ops = true ->
        constructions (trace (run gzip_NewReader gzip_pull ops handle))
        = 0%nat)
    /\ forall fuel, (List.length trailing < fuel)%nat ->
       exists handle',
         ReadAll gzip_pull fuel handle
         = Some ([], Returns (trailing, None, handle'))
         /\ decompressSource handle' = None.
Proof.
  intros Hd Hr Hf.
  eexists. split.
  { apply (ReadFile_wire r xfa xfa seconds key mime name trailing Hd Hr);
      [right; reflexivity | exact Hf]. }
  split; [reflexivity|]. split; [reflexivity|]. split; [reflexivity|].
  split; [intros ops Hops; apply raw_runs_construct_nothing; exact Hops|].
  intros fuel Hfuel. unfold raw_handle.
  eexists. split.
  - rewrite ReadAll_raw; [reflexivity | exact Hr | exact Hfuel].
  - reflexivity.
Qed.

(** C9.  [WriteFile] with a nil destination or a nil source, and [ReadFile]
    with a nil source, return their error at once: nothing is counted, the
    other stream is left as it was, and no collaborator is called. *)
Theorem nil_arguments_rejected (info : FileHeader) (dst : option Buffer)
    (src : option Reader) :
  WriteFile gzip_stream None info src
  = (0, Some nil_dst_src, None, src)
  /\ WriteFile gzip_stream dst info None
     = (0, Some nil_dst_src, dst, None)
  /\ ReadFile gzip_NewReader None = ([], Returns (None, Some nil_reader)).
Proof.
  split; [reflexivity|]. split; [|reflexivity].
  destruct dst; reflexivity.
Qed.

End Properties.

(** ** Closing *)

(** C5 (amended).  On a handle whose decompressor was constructed, [Close]
    closes the decompressor, then closes the raw source if it has a [Close]
    method, whatever the first close answered; it reports the error of the
    raw source's close ([nil] when the source has no [Close]); the answer of
    the decompressor's close is dropped. *)
Theorem Close_with_decompressor (handle : FileHandle) (z : gzipReader) :
  decompressSource handle = Some z ->
  exists handle',
    FileHandle_Close handle
    = (call_gzip_Close (gzip_Close z)
         :: match Closer (rawSource handle) with
            | Some (err, _) => [call_raw_Close err]
            | None => []
            end,
       Returns (match Closer (rawSource handle) with
                | Some (err, _) => err
                | None => None
                end, handle')).
Proof.
  intros Hz. unfold FileHandle_Close. rewrite Hz.
  destruct (Closer (rawSource handle)) as [[err raw]|]; eexists; reflexivity.
Qed.

(** [Close] on a handle that never left the raw mode dereferences the nil
    decompressor. *)
Lemma Close_without_decompressor (info : FileHeader) (raw : Reader)
    (cur : source_ref) :
  FileHandle_Close (mkFileHandle info None raw cur)
  = ([], Panics nil_dereference).
Proof. reflexivity. Qed.

(** ** The timestamp *)

Lemma until_2106_representable (t : Time) :
  0 <= t_sec t < 2 ^ 32 -> 0 <= t_nsec t < 1000000000 ->
  nano_representable t.
Proof.
  unfold nano_representable. change (2 ^ 32) with 4294967296.
  change (2 ^ 63) with 9223372036854775808. lia.
Qed.

(** C10 (amended).  For every header (with strings that fit their prefixes),
    the timestamp bytes [WriteFile] encodes are the five big-endian bytes of
    [uint(UnixNano()/1e9)], and decoding recovers exactly their value, the
    stored seconds modulo [2 ^ 40].  When the timestamp lies between the
    epoch and the end of the [int64] nanosecond range (seconds up to
    9223372036, in the year 2262; all dates up to 2106 are among them), the
    stored value is the whole-seconds Unix time, nanoseconds discarded, and
    the timestamp round-trips to the second. *)
Theorem timestamp_to_the_second (info : FileHeader) :
  strings_fit (MimeType info) (OriginalName info) ->
  firstn 5 (headerBytes info) = writeNumber_loop (stored_seconds info) 5
  /\ UploadDate
       (fst (ReadFileHeader_fields zeroFileHeader
                                   (NewBuffer (headerBytes info))))
     = time_Unix (stored_seconds info mod 2 ^ 40) 0
  /\ (nano_representable (UploadDate info) ->
      stored_seconds info = Unix (UploadDate info)
      /\ timestamp_roundtrips info).
Proof.
  intros Hf. split; [reflexivity|]. split.
  - unfold headerBytes. rewrite ReadFileHeader_fields_wire by exact Hf.
    reflexivity.
  - intros Ht. split; [apply stored_seconds_exact; exact Ht|].
    unfold timestamp_roundtrips.
    rewrite ReadFileHeader_fields_headerBytes by assumption. reflexivity.
Qed.

(** ** The stand-in decompressor inverts the stand-in compressor *)

Lemma Stored_inverse : gzip_inverse Stored.gzip_stream Stored.gzip_NewReader.
Proof.
  intros r P Hd Hr. unfold Stored.gzip_stream in Hd.
  unfold Stored.gzip_NewReader.
  assert (H10 := Read_prefix r Stored.member_header P Hd
                   ltac:(discriminate) Hr).
  change (List.length Stored.member_header) with 10%nat in H10.
  rewrite H10. eexists. reflexivity.
Qed.

(** ** The code at concrete inputs *)

(** C2 (the code at issue).  A stream that begins with two zero bytes, not
    with [0xFA 0xFA], and goes on with a well-formed header: [ReadFile]
    returns a handle with a parsed header and no error; on the 128 zero
    bytes of [TestBadRead] the error is [io.EOF], from the header fields, not
    the marker's. *)
Theorem zero_magic_accepted :
  ReadFile Stored.gzip_NewReader (Some (NewReader zero_magic_container))
  = ([], Returns
           (Some (raw_handle (mkFileHeader (time_Unix 0 0) x00 "" "")
                             (NewReader [])),
            None))
  /\ snd (fst (ReadFileHeader (NewReader (repeat x00 128)))) = Some io_EOF.
Proof. split; vm_compute; reflexivity. Qed.

(** The count for the test header and an empty payload is 41; with the
    stand-in compressor 51 bytes reach the destination. *)
Example WriteFile_count_test_header :
  exists dst src,
    WriteFile Stored.gzip_stream (Some (mkBuffer [])) testFileHeader
              (Some (NewReader []))
    = (41, None, Some dst, src)
    /\ List.length (b_bytes dst) = 51%nat.
Proof. eexists. eexists. split; vm_compute; reflexivity. Qed.

(** C6 (the code at issue).  Three bytes where five are asked for give a
    number padded with zero bytes and no error; a string whose prefix says
    five bytes, with one available, comes back as that byte and four NULs;
    a container one byte short of its declared header length decodes to a
    header without an error. *)
Theorem short_reads_accepted :
  readNumber 5 (NewBuffer [x01; x02; x03])
  = (4328718336, None, NewBuffer [])
  /\ readLengthPrefixedString (NewBuffer [x00; x05; x61])
     = (string_of_list_byte [x61; x00; x00; x00; x00], 7, None, NewBuffer [])
  /\ ReadFileHeader (NewReader truncated_container)
     = (mkFileHeader (time_Unix 1 0) x01 "" "", 2, None, NewReader []).
Proof. repeat split; vm_compute; reflexivity. Qed.

(** ** A header longer than its length field *)

(** Nine header bytes are all that is read of a header of 65545: the string
    of the first field is cut short without an error, the second field finds
    the buffer empty. *)
Lemma ReadFileHeader_fields_overflow (seconds : Z) (key c : byte) :
  snd (ReadFileHeader_fields zeroFileHeader
         (NewBuffer (writeNumber_loop seconds 5 ++ [key]
                       ++ writeNumber_loop (uint 65535) 2 ++ [c])))
  = Some io_EOF.
Proof.
  unfold ReadFileHeader_fields.
  rewrite (readNumber_written (NewBuffer _) _ 5 _ eq_refl)
    by (lia || reflexivity).
  unfold NewBuffer, set_data, ReadByte. cbn [r_kind r_data r_closed app].
  unfold set_data. cbn [r_kind r_data r_closed].
  unfold readLengthPrefixedString at 1.
  rewrite (readNumber_written (mkReader BytesBuffer _ false) (uint 65535) 2
             [c] eq_refl) by (lia || reflexivity).
  change (uint 65535 mod 2 ^ (8 * Z.of_nat 2)) with 65535.
  unfold Read, set_data. cbn [r_kind r_data r_closed].
  rewrite length_make.
  replace (Nat.min (Z.to_nat 65535) (List.length [c])) with 1%nat
    by (cbn [List.length]; lia).
  cbn [skipn].
  assert (He : readLengthPrefixedString (mkReader BytesBuffer [] false)
               = (EmptyString, 0, Some io_EOF, mkReader BytesBuffer [] false))
    by reflexivity.
  rewrite He. reflexivity.
Qed.

Lemma ReadFileHeader_overflow (r : Reader) (seconds : Z) (key : byte)
    (mime : string) (c : byte) (cs trailing : list byte) :
  list_byte_of_string mime = c :: cs ->
  Z.of_nat (List.length cs) = 65534 ->
  r_data r
  = wire_frame xfa xfa (wire_header seconds key mime "") ++ trailing ->
  readable r = true ->
  snd (fst (ReadFileHeader r)) = Some io_EOF.
Proof.
  intros Hm Hl Hd Hr.
  pose proof (length_wire_header seconds key mime "") as Hw.
  rewrite Hm in Hw.
  rewrite (ReadFileHeader_split r xfa xfa
             (uint (Z.of_nat (List.length (wire_header seconds key mime ""))))
             (writeNumber_loop seconds 5 ++ [key]
                ++ writeNumber_loop (uint 65535) 2 ++ [c])
             (cs ++ [x00; x00] ++ trailing)).
  - cbn [fst snd]. apply ReadFileHeader_fields_overflow.
  - rewrite Hd. unfold wire_frame, wire_header,
      writeLengthPrefixedString_bytes.
    rewrite Hm.
    replace (Z.of_nat (List.length (c :: cs))) with 65535
      by (cbn [List.length]; lia).
    change (list_byte_of_string "") with (@nil byte). cbn [List.length].
    change (writeNumber_loop (uint (Z.of_nat 0)) 2) with [x00; x00].
    repeat (rewrite <- app_assoc; cbn [app]). reflexivity.
  - exact Hr.
  - right. reflexivity.
  - destruct (writeNumber_loop seconds 5) eqn:E; [|discriminate].
    apply (f_equal (@List.length byte)) in E.
    rewrite length_writeNumber_loop in E. discriminate E.
  - rewrite Hw. rewrite !length_app, !length_writeNumber_loop.
    change (list_byte_of_string "") with (@nil byte).
    cbn [List.length Nat.add]. unfold uint.
    replace (10 + Z.of_nat (S (List.length cs)) + Z.of_nat 0) with 65545
      by lia.
    reflexivity.
Qed.

(** No header with a first string of 65535 bytes makes the round trip,
    whatever the decompressor. *)
Lemma roundtrip_header_overflow
    (gzip_stream : list byte -> list byte)
    (gzip_NewReader : Reader -> (error + gzipReader) * Reader)
    (gzip_pull : gzipReader -> nat -> Reader -> Reader)
    (ksrc kdst : reader_kind) (info : FileHeader) (c : byte)
    (cs B : list byte) :
  list_byte_of_string (MimeType info) = c :: cs ->
  Z.of_nat (List.length cs) = 65534 ->
  OriginalName info = EmptyString ->
  ~ roundtrip_at gzip_stream gzip_NewReader gzip_pull ksrc kdst info B.
Proof.
  intros Hm Hcs Hn
         (nW & container & src' & handle & handle' & HW & HR & _).
  rewrite WriteFile_spec in HW.
  assert (Hc : container = frame info ++ gzip_stream B).
  { destruct ksrc;
      cbn [io_Copy_source r_kind r_closed r_data set_data] in HW;
      apply (f_equal (fun x => snd (fst x))) in HW;
      cbn [fst snd b_bytes app] in HW; congruence. }
  subst container.
  assert (He : snd (fst (ReadFileHeader
                           (mkReader kdst (frame info ++ gzip_stream B)
                                     false)))
               = Some io_EOF).
  { apply (ReadFileHeader_overflow _ (stored_seconds info) (ApiKeyID info)
             (MimeType info) c cs (gzip_stream B) Hm Hcs).
    - cbn [r_data]. unfold frame, headerBytes. rewrite Hn. reflexivity.
    - destruct kdst; reflexivity. }
  unfold ReadFile in HR.
  destruct (ReadFileHeader _) as [[[h n] e] r'].
  cbn [fst snd] in He. subst e.
  cbv beta iota zeta in HR. unfold ret in HR. discriminate HR.
Qed.

(** ** Where the claims as stated fail *)

Lemma long_mime_bytes :
  list_byte_of_string (MimeType long_mime_header)
  = x61 :: repeat x61 (Z.to_nat 65534).
Proof.
  unfold long_mime_header. cbn [MimeType].
  rewrite list_byte_of_string_of_list_byte.
  replace (Z.to_nat 65535) with (S (Z.to_nat 65534)) by lia. reflexivity.
Qed.



(** C1 as stated fails: a header within the string limits whose encoding is
    longer than 65535 bytes does not come back. *)
Lemma roundtrip_fails_header_overflow :
  strings_fit (MimeType long_mime_header) (OriginalName long_mime_header)
  /\ ~ roundtrip_at Stored.gzip_stream Stored.gzip_NewReader Stored.gzip_pull
         BytesReader BytesReader long_mime_header [].
Proof.
  assert (Hcs : Z.of_nat (List.length (repeat x61 (Z.to_nat 65534))) = 65534)
    by (rewrite repeat_length; lia).
  split.
  - unfold strings_fit. rewrite long_mime_bytes. cbn [List.length].
    rewrite Nat2Z.inj_succ, Hcs. cbn. lia.
  - exact (roundtrip_header_overflow _ _ _ _ _ long_mime_header x61
             (repeat x61 (Z.to_nat 65534)) [] long_mime_bytes Hcs eq_refl).
Qed.

(** A timestamp before the epoch does not come back either. *)
Lemma roundtrip_fails_before_epoch :
  ~ roundtrip_at Stored.gzip_stream Stored.gzip_NewReader Stored.gzip_pull
      BytesReader BytesReader year_1969_header [].
Proof.
  intros (nW & container & src' & handle & handle' & HW & HR & HH & _).
  rewrite WriteFile_spec in HW. cbn [io_Copy_source r_kind r_closed r_data]
    in HW.
  injection HW as _ Hc _. subst container.
  vm_compute in HR. injection HR as <-. vm_compute in HH. discriminate HH.
Qed.

(** C4 as stated fails: on a source that is not a gzip stream the switch
    does not return, it panics. *)
Lemma SetReadMode_panics_on_garbage :
  SetReadMode Stored.gzip_NewReader
    (raw_handle testFileHeader (NewReader [x00; x00])) DecompressReadMode
  = ([call_gzip_NewReader], Panics (panic_error io_ErrUnexpectedEOF)).
Proof. vm_compute. reflexivity. Qed.

(** C5 as stated fails: the decompressor's close answers with the error the
    stream ended in, the file's close succeeds, and [Close] reports [nil]. *)
Lemma Close_drops_first_error :
  exists handle,
    bind (FileHandle_Read Stored.gzip_pull corrupt_handle (make MinRead))
         (fun '(_, _, _, h) => FileHandle_Close h)
    = ([call_gzip_Close (Some flate_CorruptInputError); call_raw_Close None],
       Returns (None, handle))
    /\ first_error [call_gzip_Close (Some flate_CorruptInputError);
                    call_raw_Close None]
       = Some flate_CorruptInputError.
Proof. eexists. split; vm_compute; reflexivity. Qed.

(** C10 as stated fails: a timestamp with seconds below [2 ^ 40] whose
    nanoseconds overflow [int64] comes back as another time. *)
Lemma timestamp_after_2262_lost :
  0 <= Unix (UploadDate year_2286_header) < 2 ^ 40
  /\ stored_seconds year_2286_header mod 2 ^ 40 = 1091064883703
  /\ ~ timestamp_roundtrips year_2286_header.
Proof.
  split; [cbn; lia|]. split; [reflexivity|].
  unfold timestamp_roundtrips. vm_compute. discriminate.
Qed.

(** ** The theorems at concrete inputs *)

Lemma WriteFile_ReadFile_roundtrip_witness :
  header_fits testFileHeader
  /\ nano_representable (UploadDate testFileHeader)
  /\ roundtrip_at Stored.gzip_stream Stored.gzip_NewReader Stored.gzip_pull
       BytesReader BytesReader testFileHeader [x68; x69].
Proof.
  assert (Hf : header_fits testFileHeader)
    by (unfold header_fits, wire_fits; cbn; lia).
  assert (Ht : nano_representable (UploadDate testFileHeader))
    by (unfold nano_representable; cbn; lia).
  split; [exact Hf|]. split; [exact Ht|].
  exact (WriteFile_ReadFile_roundtrip
           Stored.gzip_stream Stored.gzip_NewReader Stored.gzip_pull
           BytesReader BytesReader testFileHeader [x68; x69]
           Stored_inverse Hf Ht).
Defined.

Lemma SetReadMode_failure_panics_witness :
  SetReadMode Stored.gzip_NewReader
    (raw_handle testFileHeader
       (NewReader [x50; x4b; x03; x04; x14; x00; x00; x00; x08; x00]))
    DecompressReadMode
  = ([call_gzip_NewReader], Panics (panic_error gzip_ErrHeader)).
Proof.
  apply (SetReadMode_failure_panics Stored.gzip_NewReader
           (raw_handle testFileHeader
              (NewReader [x50; x4b; x03; x04; x14; x00; x00; x00; x08; x00]))
           gzip_ErrHeader (NewReader []));
    reflexivity.
Defined.

Lemma Close_with_decompressor_witness :
  exists handle',
    FileHandle_Close
      (mkFileHandle testFileHeader (Some (mkGzipReader [] None (Some io_EOF)))
                    (OpenFile []) src_decompress)
    = ([call_gzip_Close None; call_raw_Close None], Returns (None, handle')).
Proof.
  exact (Close_with_decompressor
           (mkFileHandle testFileHeader
              (Some (mkGzipReader [] None (Some io_EOF)))
              (OpenFile []) src_decompress)
           (mkGzipReader [] None (Some io_EOF)) eq_refl).
Defined.

Lemma lazy_decompression_witness :
  exists handle,
    ReadFile Stored.gzip_NewReader
      (Some (OpenFile
               (wire_frame xfa xfa
                  (wire_header 1481834107 x01 "image/png"
                               "Screenshot at todo")
                ++ [x1f; x8b; x08])))
    = ([], Returns (Some handle, None))
    /\ currentSource handle = src_raw
    /\ decompressSource handle = None
    /\ r_data (rawSource handle) = [x1f; x8b; x08]
    /\ (forall ops, no_decompress_switch ops = true ->
        constructions
          (trace (run Stored.gzip_NewReader Stored.gzip_pull ops handle))
        = 0%nat)
    /\ forall fuel, (List.length [x1f; x8b; x08] < fuel)%nat ->
       exists handle',
         ReadAll Stored.gzip_pull fuel handle
         = Some ([], Returns ([x1f; x8b; x08], None, handle'))
         /\ decompressSource handle' = None.
Proof.
  apply (lazy_decompression Stored.gzip_NewReader Stored.gzip_pull
           (OpenFile (wire_frame xfa xfa
                        (wire_header 1481834107 x01 "image/png"
                                     "Screenshot at todo")
                      ++ [x1f; x8b; x08]))
           1481834107 x01 "image/png" "Screenshot at todo" [x1f; x8b; x08]).
  - reflexivity.
  - reflexivity.
  - unfold wire_fits. cbn. lia.
Defined.

Lemma timestamp_to_the_second_witness :
  stored_seconds testFileHeader = 1481834107
  /\ timestamp_roundtrips testFileHeader.
Proof.
  assert (Hf : strings_fit (MimeType testFileHeader)
                           (OriginalName testFileHeader))
    by (unfold strings_fit; cbn; lia).
  assert (Ht : nano_representable (UploadDate testFileHeader))
    by (unfold nano_representable; cbn; lia).
  exact (proj2 (proj2 (timestamp_to_the_second testFileHeader Hf)) Ht).
Defined.

(** * Further properties of the package *)

(** ** Big-endian numbers, as values *)

Lemma big_endian_range (bs : list byte) :
  0 <= big_endian bs < 256 ^ Z.of_nat (List.length bs).
Proof.
  induction bs as [|b bs IH]; [cbn; lia|].
  cbn [big_endian List.length]. rewrite Nat2Z.inj_succ, Z.pow_succ_r by lia.
  pose proof (Z_of_byte_range b).
  assert (0 < 256 ^ Z.of_nat (List.length bs)) by (apply Z.pow_pos_nonneg; lia).
  nia.
Qed.

Lemma lor_above (a r m : Z) :
  0 <= m -> 0 <= r < 2 ^ m -> Z.lor (Z.shiftl a m) r = a * 2 ^ m + r.
Proof.
  intros Hm Hr. rewrite <- Z.shiftl_mul_pow2 by exact Hm.
  rewrite <- Z.lxor_lor, <- Z.add_nocarry_lxor; try reflexivity.
  all: apply Z.bits_inj'; intros i Hi; rewrite Z.land_spec, Z.bits_0;
    destruct (Z.ltb_spec i m);
    [ rewrite Z.shiftl_spec_low by lia; reflexivity
    | rewrite <- (Z.mod_small r (2 ^ m)) by exact Hr;
      rewrite Z.mod_pow2_bits_high by lia; apply andb_false_r ].
Qed.

Lemma pow_256 (n : nat) : 256 ^ Z.of_nat n = 2 ^ (8 * Z.of_nat n).
Proof.
  change 256 with (2 ^ 8). rewrite <- Z.pow_mul_r by lia. reflexivity.
Qed.

Lemma readNumber_loop_big_endian (bs : list byte) :
  (List.length bs <= 8)%nat ->
  forall acc, readNumber_loop bs acc = Z.lor acc (big_endian bs).
Proof.
  induction bs as [|b bs IH]; intros Hl acc.
  - cbn. rewrite Z.lor_0_r. reflexivity.
  - cbn [List.length] in Hl. cbn [readNumber_loop big_endian].
    rewrite IH by lia. rewrite <- Z.lor_assoc. f_equal.
    pose proof (Z_of_byte_range b) as Hb.
    pose proof (big_endian_range bs) as Hv. rewrite pow_256 in *.
    assert (H56 : 2 ^ (8 * Z.of_nat (List.length bs)) <= 2 ^ 56)
      by (apply Z.pow_le_mono_r; lia).
    assert (0 < 2 ^ (8 * Z.of_nat (List.length bs)))
      by (apply Z.pow_pos_nonneg; lia).
    unfold uint64. rewrite Z.mod_small.
    + apply lor_above; lia.
    + rewrite Z.shiftl_mul_pow2 by lia.
      change (2 ^ 64) with (2 ^ 8 * 2 ^ 56). change (2 ^ 8) with 256. nia.
Qed.

(** X1.  Up to eight bytes, the number [readNumber] assembles with shifts
    and ors is the big-endian value of the bytes, most significant byte
    first, and it is below [256 ^ len]. *)
Theorem readNumber_loop_is_big_endian (bs : list byte) :
  (List.length bs <= 8)%nat ->
  readNumber_loop bs 0 = big_endian bs
  /\ 0 <= readNumber_loop bs 0 < 256 ^ Z.of_nat (List.length bs).
Proof.
  intros Hl. rewrite readNumber_loop_big_endian by exact Hl.
  rewrite Z.lor_0_l. split; [reflexivity | apply big_endian_range].
Qed.

Lemma readNumber_loop_is_big_endian_witness :
  readNumber_loop [x01; x02; x03] 0 = big_endian [x01; x02; x03]
  /\ 0 <= readNumber_loop [x01; x02; x03] 0 < 256 ^ 3.
Proof.
  apply (readNumber_loop_is_big_endian [x01; x02; x03]). cbn. lia.
Defined.

Lemma byte_of_Z_mod (z : Z) : byte_of_Z (z mod 256) = byte_of_Z z.
Proof. unfold byte_of_Z. rewrite Z.mod_mod by lia. reflexivity. Qed.

(** The bytes [writeNumber] writes depend on the number modulo
    [256 ^ byteCount] only. *)
Lemma writeNumber_loop_above (n : nat) :
  forall a v : Z,
  writeNumber_loop (a * 256 ^ Z.of_nat n + v) n = writeNumber_loop v n.
Proof.
  induction n as [|n IH]; intros a v; [reflexivity|].
  cbn [writeNumber_loop]. f_equal.
  - rewrite !Z.shiftr_div_pow2 by lia. rewrite <- pow_256.
    rewrite Nat2Z.inj_succ, Z.pow_succ_r by lia.
    replace (a * (256 * 256 ^ Z.of_nat n) + v)
      with ((a * 256) * 256 ^ Z.of_nat n + v) by ring.
    rewrite Z.div_add_l by (apply Z.pow_nonzero; lia).
    rewrite <- byte_of_Z_mod.
    rewrite Z.add_comm, Z.mod_add by lia. apply byte_of_Z_mod.
  - rewrite Nat2Z.inj_succ, Z.pow_succ_r by lia.
    replace (a * (256 * 256 ^ Z.of_nat n) + v)
      with ((a * 256) * 256 ^ Z.of_nat n + v) by ring.
    apply IH.
Qed.

Lemma writeNumber_loop_big_endian (bs : list byte) :
  writeNumber_loop (big_endian bs) (List.length bs) = bs.
Proof.
  induction bs as [|b bs IH]; [reflexivity|].
  cbn [big_endian List.length writeNumber_loop].
  rewrite writeNumber_loop_above, IH. f_equal.
  rewrite Z.shiftr_div_pow2 by lia. rewrite <- pow_256.
  pose proof (big_endian_range bs) as Hv.
  rewrite Z.div_add_l by (apply Z.pow_nonzero; lia).
  rewrite Z.div_small by exact Hv. rewrite Z.add_0_r.
  apply byte_of_Z_of_byte.
Qed.

(** X2.  Decoding then encoding: writing the number read from up to eight
    bytes, in as many bytes, gives those bytes back. *)
Theorem write_read_number (bs : list byte) :
  (List.length bs <= 8)%nat ->
  writeNumber_loop (readNumber_loop bs 0) (List.length bs) = bs.
Proof.
  intros Hl. rewrite readNumber_loop_big_endian by exact Hl.
  rewrite Z.lor_0_l. apply writeNumber_loop_big_endian.
Qed.

Lemma write_read_number_witness :
  writeNumber_loop (readNumber_loop [xff; x00; x7f] 0) 3 = [xff; x00; x7f].
Proof.
  apply (write_read_number [xff; x00; x7f]). cbn. lia.
Defined.

(** X3.  Encoding then decoding, through the functions: [writeNumber] appends
    [byteCount] bytes to its destination and counts them, and [readNumber]
    on a source that starts with them returns the number modulo
    [256 ^ byteCount] -- the number itself when it fits -- and leaves the
    source after them. *)
Theorem writeNumber_readNumber (number : Z) (byteCount : nat)
    (out : Buffer) (r : Reader) (rest : list byte) :
  (0 < byteCount <= 8)%nat ->
  readable r = true ->
  exists written,
    writeNumber number byteCount out
    = (Z.of_nat byteCount, None, mkBuffer (b_bytes out ++ written))
    /\ List.length written = byteCount
    /\ readNumber byteCount (set_data r (written ++ rest))
       = (number mod 256 ^ Z.of_nat byteCount, None, set_data r rest)
    /\ (0 <= number < 256 ^ Z.of_nat byteCount ->
        readNumber byteCount (set_data r (written ++ rest))
        = (number, None, set_data r rest)).
Proof.
  intros Hk Hr. exists (writeNumber_loop number byteCount).
  assert (Hread : readNumber byteCount
                    (set_data r (writeNumber_loop number byteCount ++ rest))
                  = (number mod 256 ^ Z.of_nat byteCount, None,
                     set_data r rest)).
  { rewrite (readNumber_written (set_data r _) number byteCount rest eq_refl)
      by (lia || exact Hr).
    rewrite pow_256. reflexivity. }
  split.
  - unfold writeNumber, WriteTo.
    destruct byteCount as [|k]; [lia|]. cbn [writeNumber_loop].
    unfold Write. cbn [List.length]. rewrite length_writeNumber_loop.
    reflexivity.
  - split; [apply length_writeNumber_loop|]. split; [exact Hread|].
    intros Hn. rewrite Hread, Z.mod_small by exact Hn. reflexivity.
Qed.

Lemma writeNumber_readNumber_witness :
  exists written,
    writeNumber 1481834107 5 (mkBuffer [])
    = (5, None, mkBuffer ([] ++ written))
    /\ List.length written = 5%nat
    /\ readNumber 5 (set_data (NewBuffer []) (written ++ [x01]))
       = (1481834107 mod 256 ^ 5, None, set_data (NewBuffer []) [x01])
    /\ (0 <= 1481834107 < 256 ^ 5 ->
        readNumber 5 (set_data (NewBuffer []) (written ++ [x01]))
        = (1481834107, None, set_data (NewBuffer []) [x01])).
Proof.
  apply (writeNumber_readNumber 1481834107 5 (mkBuffer []) (NewBuffer [])
           [x01]); [lia | reflexivity].
Defined.

(** ** What a short source gives *)

Lemma big_endian_app (a b : list byte) :
  big_endian (a ++ b)
  = big_endian a * 256 ^ Z.of_nat (List.length b) + big_endian b.
Proof.
  induction a as [|x a IH]; [cbn; lia|].
  cbn [app big_endian]. rewrite IH, length_app, Nat2Z.inj_add.
  rewrite Z.pow_add_r by lia. ring.
Qed.

Lemma big_endian_zeros (n : nat) : big_endian (repeat x00 n) = 0.
Proof.
  induction n as [|n IH]; [reflexivity|].
  cbn [repeat big_endian]. rewrite IH. reflexivity.
Qed.

(** A read on a source with data left. *)
Lemma Read_some (r : Reader) (p : list byte) (x : byte) (d : list byte) :
  readable r = true -> r_data r = x :: d ->
  Read r p
  = (copy p (x :: d),
     Z.of_nat (Nat.min (List.length p) (List.length (x :: d))), None,
     set_data r (skipn (Nat.min (List.length p) (List.length (x :: d)))
                       (x :: d))).
Proof.
  intros Hr Hd. unfold Read, readable in *. rewrite Hd.
  destruct (r_kind r), (r_closed r); try discriminate; reflexivity.
Qed.

(** A read into some room on an exhausted source. *)
Lemma Read_exhausted (r : Reader) (p : list byte) :
  readable r = true -> r_data r = [] -> p <> [] ->
  Read r p = (p, 0, Some io_EOF, r).
Proof.
  intros Hr Hd Hp. unfold Read, readable in *. rewrite Hd.
  destruct p as [|y p]; [congruence|].
  destruct (r_kind r), (r_closed r); try discriminate; reflexivity.
Qed.

Lemma copy_make (n : nat) (d : list byte) :
  copy (make n) d = firstn n d ++ repeat x00 (n - List.length d).
Proof.
  unfold copy, make. rewrite repeat_length. f_equal.
  destruct (Nat.le_gt_cases n (List.length d)) as [H|H].
  - rewrite skipn_all2 by (rewrite repeat_length; exact H).
    replace (n - List.length d)%nat with 0%nat by lia. reflexivity.
  - replace n with (List.length d + (n - List.length d))%nat at 1 by lia.
    rewrite repeat_app, skipn_app, repeat_length, Nat.sub_diag.
    rewrite skipn_all2 by (rewrite repeat_length; lia). reflexivity.
Qed.

Lemma skipn_min_length (n : nat) (d : list byte) :
  skipn (Nat.min n (List.length d)) d = skipn n d.
Proof.
  destruct (Nat.le_gt_cases n (List.length d)) as [H|H].
  - rewrite Nat.min_l by exact H. reflexivity.
  - rewrite Nat.min_r, skipn_all by lia.
    rewrite skipn_all2 by lia. reflexivity.
Qed.

(** X4.  [readNumber] reports an error only on an exhausted source
    ([io.EOF], value 0, nothing consumed).  With data left it never fails:
    it takes up to [byteCount] bytes and returns their big-endian value
    followed by zero bytes for the ones that were missing -- with fewer
    bytes than asked for, a number that was never written. *)
Theorem readNumber_short_source (byteCount : nat) (r : Reader) :
  (0 < byteCount <= 8)%nat ->
  readable r = true ->
  (r_data r = [] -> readNumber byteCount r = (0, Some io_EOF, r))
  /\ (r_data r <> [] ->
      readNumber byteCount r
      = (big_endian (firstn byteCount (r_data r))
         * 256 ^ Z.of_nat (byteCount - List.length (r_data r)),
         None, set_data r (skipn byteCount (r_data r)))).
Proof.
  intros Hk Hr. unfold readNumber. split.
  - intros Hd. rewrite Read_exhausted; [reflexivity | exact Hr | exact Hd |].
    destruct byteCount; [lia | discriminate].
  - intros Hd. destruct (r_data r) as [|x d] eqn:E; [congruence|].
    rewrite (Read_some r _ x d Hr E), length_make, skipn_min_length.
    rewrite copy_make.
    rewrite readNumber_loop_big_endian
      by (rewrite length_app, length_firstn, repeat_length; lia).
    rewrite Z.lor_0_l, big_endian_app, big_endian_zeros, repeat_length.
    rewrite Z.add_0_r. reflexivity.
Qed.

Lemma readNumber_short_source_witness :
  (r_data (NewBuffer [x01; x02; x03]) = [] ->
   readNumber 5 (NewBuffer [x01; x02; x03])
   = (0, Some io_EOF, NewBuffer [x01; x02; x03]))
  /\ (r_data (NewBuffer [x01; x02; x03]) <> [] ->
      readNumber 5 (NewBuffer [x01; x02; x03])
      = (big_endian (firstn 5 [x01; x02; x03]) * 256 ^ Z.of_nat (5 - 3),
         None, set_data (NewBuffer [x01; x02; x03])
                        (skipn 5 [x01; x02; x03]))).
Proof.
  apply (readNumber_short_source 5 (NewBuffer [x01; x02; x03]));
    [lia | reflexivity].
Defined.

(** ** The first revision's [readNumber] *)

Lemma Legacy_readNumber_loop_full (a : list byte) :
  forall (r : Reader) (rest : list byte) (number : Z) (sb : list byte),
  List.length sb = 1%nat ->
  readable r = true ->
  r_data r = a ++ rest ->
  Legacy.readNumber_loop (List.length a) sb r number
  = (readNumber_loop a number, None, set_data r rest).
Proof.
  induction a as [|x a IH]; intros r rest number sb Hsb Hr Hd.
  - cbn in *. rewrite <- Hd. destruct r; reflexivity.
  - cbn [List.length Legacy.readNumber_loop readNumber_loop].
    cbn [app] in Hd. rewrite (Read_some r sb x (a ++ rest) Hr Hd), Hsb.
    destruct sb as [|y [|? ?]]; try discriminate.
    cbn [Nat.min List.length skipn copy firstn app nth].
    rewrite skipn_nil.
    apply (IH (set_data r (a ++ rest)) rest _ [x]);
      [reflexivity | exact Hr | reflexivity].
Qed.

Lemma Legacy_readNumber_loop_short (left : nat) :
  forall (r : Reader) (number : Z) (sb : list byte),
  List.length sb = 1%nat ->
  readable r = true ->
  (List.length (r_data r) < left)%nat ->
  exists number' r',
    Legacy.readNumber_loop left sb r number = (number', Some io_EOF, r').
Proof.
  induction left as [|left IH]; intros r number sb Hsb Hr Hl; [lia|].
  cbn [Legacy.readNumber_loop].
  destruct (r_data r) as [|x d] eqn:E.
  - rewrite Read_exhausted;
      [eexists; eexists; reflexivity | exact Hr | exact E |].
    destruct sb; [discriminate | discriminate].
  - rewrite (Read_some r sb x d Hr E), Hsb.
    destruct sb as [|y [|? ?]]; try discriminate.
    cbn [Nat.min List.length skipn copy firstn app].
    rewrite skipn_nil.
    apply IH; [reflexivity | exact Hr |].
    cbn [set_data r_data]. cbn [List.length] in Hl. lia.
Qed.

(** With the bytes there, the two revisions of [readNumber] agree. *)
Lemma Legacy_readNumber_full (byteCount : nat) (r : Reader) :
  readable r = true ->
  (0 < byteCount <= List.length (r_data r))%nat ->
  Legacy.readNumber byteCount r = readNumber byteCount r.
Proof.
  intros Hr Hl. unfold Legacy.readNumber, readNumber.
  pose proof (firstn_skipn byteCount (r_data r)) as Hsplit.
  assert (Hlen : List.length (firstn byteCount (r_data r)) = byteCount)
    by (rewrite length_firstn; lia).
  assert (Hne : firstn byteCount (r_data r) <> []).
  { intros E. rewrite E in Hlen. cbn in Hlen. lia. }
  pose proof (Legacy_readNumber_loop_full _ r (skipn byteCount (r_data r))
                0 (make 1) eq_refl Hr (eq_sym Hsplit)) as HL.
  pose proof (Read_prefix r (firstn byteCount (r_data r))
                (skipn byteCount (r_data r)) (eq_sym Hsplit) Hne Hr) as HR.
  rewrite Hlen in HL, HR. rewrite HL, HR. reflexivity.
Qed.

(** X5.  The first revision's [readNumber], which reads byte by byte,
    fails with [io.EOF] whenever the source holds fewer bytes than asked
    for; when the bytes are there it returns what the current [readNumber]
    returns. *)
Theorem Legacy_readNumber_detects_truncation (byteCount : nat) (r : Reader) :
  readable r = true ->
  ((List.length (r_data r) < byteCount)%nat ->
   snd (fst (Legacy.readNumber byteCount r)) = Some io_EOF)
  /\ ((0 < byteCount <= List.length (r_data r))%nat ->
      Legacy.readNumber byteCount r = readNumber byteCount r).
Proof.
  intros Hr. split.
  - intros Hl.
    destruct (Legacy_readNumber_loop_short byteCount r 0 (make 1)
                eq_refl Hr Hl) as (n' & r' & H).
    unfold Legacy.readNumber. rewrite H. reflexivity.
  - intros Hl. apply Legacy_readNumber_full; assumption.
Qed.

Lemma Legacy_readNumber_detects_truncation_witness :
  snd (fst (Legacy.readNumber 5 (NewBuffer [x01; x02; x03]))) = Some io_EOF
  /\ Legacy.readNumber 2 (NewBuffer [x01; x02; x03])
     = readNumber 2 (NewBuffer [x01; x02; x03]).
Proof.
  split.
  - apply (proj1 (Legacy_readNumber_detects_truncation 5
                    (NewBuffer [x01; x02; x03]) eq_refl)). cbn. lia.
  - apply (proj2 (Legacy_readNumber_detects_truncation 2
                    (NewBuffer [x01; x02; x03]) eq_refl)). cbn. lia.
Defined.

(** ** Length-prefixed strings, of any length *)

Lemma uint_mod_65536 (n : Z) : uint n mod 2 ^ 16 = n mod 2 ^ 16.
Proof.
  unfold uint. apply Z.mod_mod_divide. exists (2 ^ 48). reflexivity.
Qed.

(** X7.  Whatever its length, a written string is read back as its first
    [len mod 65536] bytes, without an error; the bytes beyond them stay in
    the buffer, in front of what followed the string.  A string of exactly
    65536 bytes reads back empty. *)
Theorem long_string_truncated (str : string) (rest : list byte) :
  let s := list_byte_of_string str in
  let m := Z.to_nat (Z.of_nat (List.length s) mod 2 ^ 16) in
  readLengthPrefixedString
    (NewBuffer (writeLengthPrefixedString_bytes str ++ rest))
  = (string_of_list_byte (firstn m s), 2 + Z.of_nat m, None,
     NewBuffer (skipn m s ++ rest)).
Proof.
  intros s m. unfold readLengthPrefixedString, writeLengthPrefixedString_bytes.
  fold s. rewrite <- app_assoc.
  rewrite (readNumber_written (NewBuffer _) _ 2 _ eq_refl)
    by (lia || reflexivity).
  change (2 ^ (8 * Z.of_nat 2)) with (2 ^ 16). rewrite uint_mod_65536.
  fold m.
  pose proof (Z.mod_pos_bound (Z.of_nat (List.length s)) (2 ^ 16) ltac:(lia))
    as Hb.
  assert (Hm : Z.of_nat m = Z.of_nat (List.length s) mod 2 ^ 16)
    by (unfold m; lia).
  assert (Hle : (m <= List.length s)%nat).
  { pose proof (Z.mod_le (Z.of_nat (List.length s)) (2 ^ 16)). lia. }
  assert (Hi : int64 (2 + int64 (Z.of_nat m)) = 2 + Z.of_nat m).
  { change (2 ^ 16) with 65536 in *.
    rewrite (int64_small (Z.of_nat m))
      by (change (2 ^ 63) with 9223372036854775808; lia).
    apply int64_small. change (2 ^ 63) with 9223372036854775808. lia. }
  rewrite <- Hm, Hi.
  destruct m as [|m'] eqn:Em.
  - unfold NewBuffer, set_data. cbn [r_kind r_data r_closed].
    rewrite Read_nothing by reflexivity. reflexivity.
  - assert (Hsplit : s ++ rest = firstn (S m') s ++ (skipn (S m') s ++ rest))
      by (rewrite app_assoc, firstn_skipn; reflexivity).
    assert (Hlen : List.length (firstn (S m') s) = S m')
      by (rewrite length_firstn; lia).
    pose proof (Read_prefix (set_data (NewBuffer (writeNumber_loop
                  (uint (Z.of_nat (List.length s))) 2 ++ s ++ rest))
                  (s ++ rest))
                  (firstn (S m') s) (skipn (S m') s ++ rest) Hsplit) as HR.
    rewrite Hlen in HR. rewrite HR; [reflexivity | | reflexivity].
    intros E. rewrite E in Hlen. discriminate Hlen.
Qed.

(** X6.  A string of at most 65535 bytes makes the round trip: the write
    appends [2 + len] bytes and counts them, the read returns the string
    and the same count and leaves the buffer after it. *)
Theorem string_roundtrip (str : string) (out : Buffer) (rest : list byte) :
  Z.of_nat (List.length (list_byte_of_string str)) <= 65535 ->
  exists written,
    writeLengthPrefixedString str out
    = (2 + Z.of_nat (List.length (list_byte_of_string str)), None,
       mkBuffer (b_bytes out ++ written))
    /\ readLengthPrefixedString (NewBuffer (written ++ rest))
       = (str, 2 + Z.of_nat (List.length (list_byte_of_string str)), None,
          NewBuffer rest).
Proof.
  intros Hl. exists (writeLengthPrefixedString_bytes str). split.
  - unfold writeLengthPrefixedString, WriteTo,
      writeLengthPrefixedString_bytes.
    cbn [writeNumber_loop app]. unfold Write. cbn [List.length].
    do 2 f_equal. lia.
  - apply (readLengthPrefixedString_written (NewBuffer _) str rest eq_refl
             eq_refl Hl).
Qed.

Lemma string_roundtrip_witness :
  exists written,
    writeLengthPrefixedString "image/png" (mkBuffer [xfa])
    = (2 + 9, None, mkBuffer ([xfa] ++ written))
    /\ readLengthPrefixedString (NewBuffer (written ++ [x00; x00]))
       = ("image/png"%string, 2 + 9, None, NewBuffer [x00; x00]).
Proof.
  apply (string_roundtrip "image/png" (mkBuffer [xfa]) [x00; x00]).
  cbn. lia.
Defined.

(** ** What [WriteFile] leaves in the destination *)

Lemma length_frame (info : FileHeader) :
  Z.of_nat (List.length (frame info))
  = 14 + Z.of_nat (List.length (list_byte_of_string (MimeType info)))
       + Z.of_nat (List.length (list_byte_of_string (OriginalName info))).
Proof.
  unfold frame, wire_frame. rewrite !length_app, length_writeNumber_loop.
  cbn [List.length]. unfold headerBytes.
  pose proof (length_wire_header (stored_seconds info) (ApiKeyID info)
                (MimeType info) (OriginalName info)). lia.
Qed.

(** X8.  With a source that can be read, [WriteFile] succeeds; it appends to
    the destination, leaving what was there, the marker [0xFA 0xFA], the
    two-byte header length, the header -- [14 + len(mime) + len(name)] bytes
    in all -- and then the compressed stream of everything the source held;
    the source is left at its end. *)
Theorem WriteFile_appends_frame_and_stream
    (gzip_stream : list byte -> list byte) (dst : Buffer) (info : FileHeader)
    (src : Reader) :
  readable src = true ->
  exists nWritten,
    WriteFile gzip_stream (Some dst) info (Some src)
    = (nWritten, None,
       Some (mkBuffer (b_bytes dst ++ frame info
                         ++ gzip_stream (r_data src))),
       Some (set_data src []))
    /\ firstn 2 (frame info) = [xfa; xfa]
    /\ Z.of_nat (List.length (frame info))
       = 14 + Z.of_nat (List.length (list_byte_of_string (MimeType info)))
            + Z.of_nat (List.length
                          (list_byte_of_string (OriginalName info))).
Proof.
  intros Hr. eexists. split; [|split; [reflexivity | apply length_frame]].
  rewrite WriteFile_spec. unfold io_Copy_source, readable in *.
  destruct (r_kind src), (r_closed src); try discriminate; reflexivity.
Qed.

Lemma WriteFile_appends_frame_and_stream_witness :
  exists nWritten,
    WriteFile Stored.gzip_stream (Some (mkBuffer [x00])) testFileHeader
              (Some (OpenFile [x68; x69]))
    = (nWritten, None,
       Some (mkBuffer ([x00] ++ frame testFileHeader
                         ++ Stored.gzip_stream [x68; x69])),
       Some (set_data (OpenFile [x68; x69]) []))
    /\ firstn 2 (frame testFileHeader) = [xfa; xfa]
    /\ Z.of_nat (List.length (frame testFileHeader))
       = 14 + Z.of_nat (List.length
                          (list_byte_of_string (MimeType testFileHeader)))
            + Z.of_nat (List.length
                          (list_byte_of_string
                             (OriginalName testFileHeader))).
Proof.
  apply (WriteFile_appends_frame_and_stream Stored.gzip_stream
           (mkBuffer [x00]) testFileHeader (OpenFile [x68; x69])).
  reflexivity.
Defined.

(** X9.  When the source is a closed file, [WriteFile] returns the file's
    error, and the destination has nevertheless received the marker, the
    header and the compressed stream of no payload: a failed write leaves a
    well-formed container of an empty payload behind.  The count is that of
    the marker and the header. *)
Theorem WriteFile_closed_source
    (gzip_stream : list byte -> list byte) (dst : Buffer) (info : FileHeader)
    (data : list byte) :
  WriteFile gzip_stream (Some dst) info (Some (mkReader OsFile data true))
  = (4 + Z.of_nat (List.length (headerBytes info)), Some os_ErrClosed,
     Some (mkBuffer (b_bytes dst ++ frame info ++ gzip_stream [])),
     Some (mkReader OsFile data true)).
Proof. rewrite WriteFile_spec. reflexivity. Qed.

(** ** The errors of [ReadFileHeader] *)

Lemma Read_outcome (r : Reader) (p : list byte) :
  readable r = true ->
  (snd (fst (Read r p)) = None \/ snd (fst (Read r p)) = Some io_EOF)
  /\ readable (snd (Read r p)) = true
  /\ 0 <= snd (fst (fst (Read r p))) <= Z.of_nat (List.length p).
Proof.
  intros Hr. destruct r as [k d c]. unfold readable, Read in *.
  cbn [r_kind r_closed r_data] in *.
  destruct d as [|x d].
  - destruct k, c, p; try discriminate; cbn; repeat split; auto; lia.
  - destruct k, c; try discriminate; cbn [fst snd set_data r_kind r_closed];
      repeat split; auto; lia.
Qed.

Lemma readNumber_outcome (k : nat) (r : Reader) :
  readable r = true ->
  (snd (fst (readNumber k r)) = None
   \/ snd (fst (readNumber k r)) = Some io_EOF)
  /\ readable (snd (readNumber k r)) = true.
Proof.
  intros Hr. unfold readNumber.
  destruct (Read_outcome r (make k) Hr) as (He & Hr' & _).
  destruct (Read r (make k)) as [[[p n] e] r']. cbn [fst snd] in *.
  destruct e; cbn; auto.
Qed.

Lemma readLengthPrefixedString_outcome (r : Reader) :
  readable r = true ->
  (snd (fst (readLengthPrefixedString r)) = None
   \/ snd (fst (readLengthPrefixedString r)) = Some io_EOF)
  /\ readable (snd (readLengthPrefixedString r)) = true.
Proof.
  intros Hr. unfold readLengthPrefixedString.
  destruct (readNumber_outcome 2 r Hr) as (He & Hr').
  destruct (readNumber 2 r) as [[n e] r']. cbn [fst snd] in *.
  destruct e as [e|]; [cbn; auto|].
  destruct (Read_outcome r' (make (Z.to_nat n)) Hr') as (He2 & Hr2 & _).
  destruct (Read r' (make (Z.to_nat n))) as [[[p c] e2] r2].
  cbn [fst snd] in *. destruct e2; cbn; auto.
Qed.

Lemma ReadFileHeader_fields_outcome (h0 : FileHeader) (r : Reader) :
  readable r = true ->
  snd (ReadFileHeader_fields h0 r) = None
  \/ snd (ReadFileHeader_fields h0 r) = Some io_EOF.
Proof.
  intros Hr. unfold ReadFileHeader_fields.
  destruct (readNumber_outcome 5 r Hr) as (He & Hr1).
  destruct (readNumber 5 r) as [[n e] r1]. cbn [fst snd] in *.
  destruct e as [e|]; [cbn; auto|].
  assert (Hb : (snd (fst (ReadByte r1)) = None
                \/ snd (fst (ReadByte r1)) = Some io_EOF)
               /\ readable (snd (ReadByte r1)) = true).
  { unfold ReadByte. destruct r1 as [k d c]. cbn [r_data].
    destruct d; cbn; auto. }
  destruct Hb as (He2 & Hr2).
  destruct (ReadByte r1) as [[b e2] r2]. cbn [fst snd] in *.
  destruct e2 as [e2|]; [cbn; auto|].
  destruct (readLengthPrefixedString_outcome r2 Hr2) as (He3 & Hr3).
  destruct (readLengthPrefixedString r2) as [[[s c] e3] r3].
  cbn [fst snd] in *. destruct e3 as [e3|]; [cbn; auto|].
  destruct (readLengthPrefixedString_outcome r3 Hr3) as (He4 & Hr4).
  destruct (readLengthPrefixedString r3) as [[[s' c'] e4] r4].
  cbn [fst snd] in *. destruct e4; cbn; auto.
Qed.

(** X10.  On any source that can be read, [ReadFileHeader] fails in two
    ways only, with the marker's error or with [io.EOF]; and its count is
    that of the first read, at most 2, however many bytes it has consumed. *)
Theorem ReadFileHeader_errors_and_count (r : Reader) :
  readable r = true ->
  (snd (fst (ReadFileHeader r)) = None
   \/ snd (fst (ReadFileHeader r)) = Some bad_magic
   \/ snd (fst (ReadFileHeader r)) = Some io_EOF)
  /\ 0 <= snd (fst (fst (ReadFileHeader r))) <= 2.
Proof.
  intros Hr. unfold ReadFileHeader.
  destruct (Read_outcome r (make 2) Hr) as (He & Hr1 & Hn).
  destruct (Read r (make 2)) as [[[p n] e] r1]. cbn [fst snd] in *.
  rewrite length_make in Hn.
  destruct e as [e|]; [cbn [fst snd]; split; [tauto | lia]|].
  destruct (negb (Byte.eqb (nth 0 p x00) (nth 1 p x00))
            && negb (Byte.eqb (nth 0 p x00) xfa));
    [cbn [fst snd]; split; [tauto | lia]|].
  destruct (readNumber_outcome 2 r1 Hr1) as (He2 & Hr2).
  destruct (readNumber 2 r1) as [[hl e2] r2]. cbn [fst snd] in *.
  destruct e2 as [e2|]; [cbn [fst snd]; split; [tauto | lia]|].
  destruct (Read_outcome r2 (make (Z.to_nat hl)) Hr2) as (He3 & Hr3 & _).
  destruct (Read r2 (make (Z.to_nat hl))) as [[[hb c] e3] r3].
  cbn [fst snd] in *.
  destruct e3 as [e3|]; [cbn [fst snd]; split; [tauto | lia]|].
  pose proof (ReadFileHeader_fields_outcome zeroFileHeader (NewBuffer hb)
                eq_refl) as Hf.
  destruct (ReadFileHeader_fields zeroFileHeader (NewBuffer hb)) as [h e4].
  cbn [fst snd] in *. split; [tauto | lia].
Qed.

Lemma ReadFileHeader_errors_and_count_witness :
  (snd (fst (ReadFileHeader (NewReader truncated_container))) = None
   \/ snd (fst (ReadFileHeader (NewReader truncated_container)))
      = Some bad_magic
   \/ snd (fst (ReadFileHeader (NewReader truncated_container)))
      = Some io_EOF)
  /\ 0 <= snd (fst (fst (ReadFileHeader (NewReader truncated_container))))
     <= 2.
Proof.
  apply (ReadFileHeader_errors_and_count (NewReader truncated_container)).
  reflexivity.
Defined.

(** X11.  The marker check, exactly: on a source of at least two bytes
    [ReadFileHeader] answers with the marker's error if and only if the two
    bytes differ and the first is not [0xFA]; it then has consumed the two
    bytes, counts 2, and returns the zero header. *)
Theorem marker_rejected_iff (r : Reader) (b0 b1 : byte) (rest : list byte) :
  readable r = true ->
  r_data r = b0 :: b1 :: rest ->
  (snd (fst (ReadFileHeader r)) = Some bad_magic
   <-> b0 <> b1 /\ b0 <> xfa)
  /\ (b0 <> b1 -> b0 <> xfa ->
      ReadFileHeader r
      = (zeroFileHeader, 2, Some bad_magic, set_data r rest)).
Proof.
  intros Hr Hd.
  assert (H2 := Read_prefix r [b0; b1] rest Hd ltac:(discriminate) Hr).
  cbn [List.length] in H2.
  assert (Hrej : b0 <> b1 -> b0 <> xfa ->
                 ReadFileHeader r
                 = (zeroFileHeader, 2, Some bad_magic, set_data r rest)).
  { intros H01 Hfa. unfold ReadFileHeader. rewrite H2. cbn [nth].
    destruct (Byte.eqb b0 b1) eqn:E1;
      [apply Byte.byte_dec_bl in E1; contradiction|].
    destruct (Byte.eqb b0 xfa) eqn:E2;
      [apply Byte.byte_dec_bl in E2; contradiction|].
    reflexivity. }
  split; [|exact Hrej]. split.
  - intros Herr. unfold ReadFileHeader, bad_magic in Herr.
    rewrite H2 in Herr. cbn [nth] in Herr.
    destruct (Byte.eqb b0 b1) eqn:E1, (Byte.eqb b0 xfa) eqn:E2;
      cbn [negb andb] in Herr.
    4: { split; intros E; subst;
           rewrite (Byte.byte_dec_lb eq_refl) in *; discriminate. }
    all: exfalso;
      pose proof (readNumber_outcome 2 (set_data r rest) Hr) as (He2 & Hr2);
      destruct (readNumber 2 (set_data r rest)) as [[hl e2] r2];
      cbn [fst snd] in *;
      (destruct e2 as [e2|];
       [cbn in Herr; destruct He2 as [He2|He2]; congruence|]);
      pose proof (Read_outcome r2 (make (Z.to_nat hl)) Hr2)
        as (He3 & Hr3 & _);
      destruct (Read r2 (make (Z.to_nat hl))) as [[[hb c] e3] r3];
      cbn [fst snd] in *;
      (destruct e3 as [e3|];
       [cbn in Herr; destruct He3 as [He3|He3]; congruence|]);
      pose proof (ReadFileHeader_fields_outcome zeroFileHeader (NewBuffer hb)
                    eq_refl) as Hf;
      destruct (ReadFileHeader_fields zeroFileHeader (NewBuffer hb))
        as [h e4];
      cbn [fst snd] in *; destruct Hf as [Hf|Hf]; congruence.
  - intros [H01 Hfa]. rewrite (Hrej H01 Hfa). reflexivity.
Qed.

Lemma marker_rejected_iff_witness :
  (snd (fst (ReadFileHeader (NewReader [x50; x4b; x03])))
   = Some bad_magic <-> x50 <> x4b /\ x50 <> xfa)
  /\ (x50 <> x4b -> x50 <> xfa ->
      ReadFileHeader (NewReader [x50; x4b; x03])
      = (zeroFileHeader, 2, Some bad_magic,
         set_data (NewReader [x50; x4b; x03]) [x03])).
Proof.
  apply (marker_rejected_iff (NewReader [x50; x4b; x03]) x50 x4b [x03]);
    reflexivity.
Defined.

(** ** Headers and their encodings *)

(** X12.  Two headers with times in the representable range and strings
    within their prefixes that encode to the same bytes are the same header,
    up to the fraction of the second. *)
Theorem headerBytes_injective (info1 info2 : FileHeader) :
  nano_representable (UploadDate info1) ->
  nano_representable (UploadDate info2) ->
  strings_fit (MimeType info1) (OriginalName info1) ->
  strings_fit (MimeType info2) (OriginalName info2) ->
  headerBytes info1 = headerBytes info2 ->
  seconds_only info1 = seconds_only info2.
Proof.
  intros Ht1 Ht2 Hf1 Hf2 Heq.
  pose proof (ReadFileHeader_fields_headerBytes zeroFileHeader info1 Ht1 Hf1)
    as H1.
  pose proof (ReadFileHeader_fields_headerBytes zeroFileHeader info2 Ht2 Hf2)
    as H2.
  rewrite Heq in H1. congruence.
Qed.

Lemma headerBytes_injective_witness :
  seconds_only testFileHeader
  = seconds_only (mkFileHeader (mkTime 1481834107 999) x01 "image/png"
                               "Screenshot at todo").
Proof.
  apply (headerBytes_injective testFileHeader
           (mkFileHeader (mkTime 1481834107 999) x01 "image/png"
                         "Screenshot at todo")).
  - unfold nano_representable. cbn. lia.
  - unfold nano_representable. cbn. lia.
  - unfold strings_fit. cbn. lia.
  - unfold strings_fit. cbn. lia.
  - reflexivity.
Defined.

Lemma int64_in_range (z : Z) : - 2 ^ 63 <= z < 2 ^ 63 -> int64 z = z.
Proof.
  intros Hz. unfold int64.
  change (2 ^ 63) with 9223372036854775808 in *.
  change (2 ^ 64) with 18446744073709551616.
  rewrite Z.mod_small by lia. lia.
Qed.

(** X13.  A time of whole seconds, before or after the epoch, whose
    nanoseconds are in [int64], is stored as its seconds modulo [2 ^ 40] and
    decoded as that many seconds after the epoch: one second before the
    epoch comes back as [2 ^ 40 - 1] seconds after it. *)
Theorem whole_seconds_stored_modulo (info : FileHeader) :
  t_nsec (UploadDate info) = 0 ->
  - 9223372036 <= t_sec (UploadDate info) <= 9223372036 ->
  strings_fit (MimeType info) (OriginalName info) ->
  stored_seconds info mod 2 ^ 40 = t_sec (UploadDate info) mod 2 ^ 40
  /\ UploadDate
       (fst (ReadFileHeader_fields zeroFileHeader
                                   (NewBuffer (headerBytes info))))
     = time_Unix (t_sec (UploadDate info) mod 2 ^ 40) 0.
Proof.
  intros Hn Hs Hf.
  assert (Hst : stored_seconds info mod 2 ^ 40
                = t_sec (UploadDate info) mod 2 ^ 40).
  { unfold stored_seconds, UnixNano. rewrite Hn, Z.add_0_r.
    rewrite int64_in_range
      by (change (2 ^ 63) with 9223372036854775808; lia).
    rewrite Z.quot_mul by lia.
    unfold uint. apply Z.mod_mod_divide. exists (2 ^ 24). reflexivity. }
  split; [exact Hst|].
  unfold headerBytes. rewrite ReadFileHeader_fields_wire by exact Hf.
  cbn [fst UploadDate]. rewrite Hst. reflexivity.
Qed.

Lemma whole_seconds_stored_modulo_witness :
  stored_seconds year_1969_header mod 2 ^ 40 = (-1) mod 2 ^ 40
  /\ UploadDate
       (fst (ReadFileHeader_fields zeroFileHeader
               (NewBuffer (headerBytes year_1969_header))))
     = time_Unix ((-1) mod 2 ^ 40) 0.
Proof.
  apply (whole_seconds_stored_modulo year_1969_header).
  - reflexivity.
  - cbn. lia.
  - unfold strings_fit. cbn. lia.
Defined.

Section Handles.

Variable gzip_NewReader : Reader -> (error + gzipReader) * Reader.
Variable gzip_pull : gzipReader -> nat -> Reader -> Reader.

(** ** The handle of a failed [ReadFile] *)

(** X14.  When the header cannot be read, [ReadFile] returns the error
    together with a handle that is not nil, with no current source and no
    decompressor: a [Read] or a [Close] on it dereferences nil. *)
Theorem failed_ReadFile_handle (r : Reader) (e : error) :
  snd (fst (ReadFileHeader r)) = Some e ->
  exists handle,
    ReadFile gzip_NewReader (Some r) = ([], Returns (Some handle, Some e))
    /\ (forall p, FileHandle_Read gzip_pull handle p
                  = ([], Panics nil_dereference))
    /\ FileHandle_Close handle = ([], Panics nil_dereference).
Proof.
  intros He. unfold ReadFile.
  destruct (ReadFileHeader r) as [[[h n] e'] r']. cbn [fst snd] in He.
  subst e'. eexists. split; [reflexivity|]. split; reflexivity.
Qed.

(** ** When a mode switch returns *)

(** X15.  [SetReadMode] returns exactly for the raw mode, and for the
    decompressed mode when a decompressor is there already or
    [gzip.NewReader] accepts the raw source; any other mode, and a rejected
    source, end in a panic.  When it returns, the header is the one the
    handle had. *)
Theorem SetReadMode_returns_iff (handle : FileHandle) (mode : ReadMode) :
  ((exists handle',
      result (SetReadMode gzip_NewReader handle mode) = Returns handle')
   <-> mode = RawReadMode
       \/ (mode = DecompressReadMode
           /\ (built handle = true
               \/ exists z raw,
                    gzip_NewReader (rawSource handle) = (inr z, raw))))
  /\ forall handle',
       result (SetReadMode gzip_NewReader handle mode) = Returns handle' ->
       Header handle' = Header handle.
Proof.
  unfold SetReadMode, built, DecompressReadMode, RawReadMode.
  destruct (N.eqb_spec mode 0) as [-> | H0].
  - destruct (decompressSource handle) as [z|] eqn:Ez.
    + split.
      * split; [intros _; right; auto | intros _; eexists; reflexivity].
      * intros h' [= <-]. reflexivity.
    + destruct (gzip_NewReader (rawSource handle)) as [[e|d] raw] eqn:Eg.
      * split.
        -- split; [intros [h' [=]]|].
           intros [H | [_ [H | (z & raw' & H)]]]; discriminate.
        -- intros h' [=].
      * split.
        -- split; [intros _; right; split; [reflexivity|]; right; eauto|].
           intros _. eexists. reflexivity.
        -- intros h' [= <-]. reflexivity.
  - destruct (N.eqb_spec mode 1) as [-> | H1].
    + split.
      * split; [intros _; left; reflexivity | intros _; eexists; reflexivity].
      * intros h' [= <-]. reflexivity.
    + split.
      * split; [intros [h' [=]]|]. intros [H | [H _]]; contradiction.
      * intros h' [=].
Qed.

End Handles.

Lemma failed_ReadFile_handle_witness :
  exists handle,
    ReadFile Stored.gzip_NewReader (Some (NewReader [x50; x4b; x03; x04]))
    = ([], Returns (Some handle, Some bad_magic))
    /\ (forall p, FileHandle_Read Stored.gzip_pull handle p
                  = ([], Panics nil_dereference))
    /\ FileHandle_Close handle = ([], Panics nil_dereference).
Proof.
  apply (failed_ReadFile_handle Stored.gzip_NewReader Stored.gzip_pull
           (NewReader [x50; x4b; x03; x04]) bad_magic).
  reflexivity.
Defined.

(** ** After [Close] *)

(** X16.  Over an open file, with a decompressor built: [Close] returns nil
    and closes the file, keeping the current source; a second [Close]
    returns the file's already-closed error, and a [Read] in the raw mode
    after the close returns that error with no byte. *)
Theorem Close_twice_on_file (info : FileHeader) (z : gzipReader)
    (data p : list byte) (cur : source_ref) :
  let closed := mkFileHandle info (Some z) (mkReader OsFile data true) in
  FileHandle_Close (mkFileHandle info (Some z) (mkReader OsFile data false)
                                 cur)
  = ([call_gzip_Close (gzip_Close z); call_raw_Close None],
     Returns (None, closed cur))
  /\ FileHandle_Close (closed cur)
     = ([call_gzip_Close (gzip_Close z); call_raw_Close (Some os_ErrClosed)],
        Returns (Some os_ErrClosed, closed cur))
  /\ forall gzip_pull,
       FileHandle_Read gzip_pull (closed src_raw) p
       = ([], Returns (p, 0, Some os_ErrClosed, closed src_raw)).
Proof. cbn zeta. split; [reflexivity|]. split; reflexivity. Qed.

(** X17.  Over a source without a [Close] method, with a decompressor
    built: [Close] returns nil and resets the current source, so that the
    next [Read] dereferences nil, whatever the mode was; the source itself is
    left as it was. *)
Theorem Close_without_closer (info : FileHeader) (z : gzipReader)
    (raw : Reader) (p : list byte) (cur : source_ref) :
  r_kind raw <> OsFile ->
  FileHandle_Close (mkFileHandle info (Some z) raw cur)
  = ([call_gzip_Close (gzip_Close z)],
     Returns (None, mkFileHandle info (Some z) raw src_nil))
  /\ forall gzip_pull,
       FileHandle_Read gzip_pull (mkFileHandle info (Some z) raw src_nil) p
       = ([], Panics nil_dereference).
Proof.
  intros Hk. split; [|reflexivity].
  unfold FileHandle_Close, Closer. cbn [decompressSource rawSource].
  destruct (r_kind raw); [reflexivity | reflexivity | contradiction].
Qed.

Lemma Close_without_closer_witness :
  FileHandle_Close
    (mkFileHandle testFileHeader (Some (mkGzipReader [] None None))
                  (NewReader [x01]) src_decompress)
  = ([call_gzip_Close None],
     Returns (None,
              mkFileHandle testFileHeader (Some (mkGzipReader [] None None))
                           (NewReader [x01]) src_nil))
  /\ forall gzip_pull,
       FileHandle_Read gzip_pull
         (mkFileHandle testFileHeader (Some (mkGzipReader [] None None))
                       (NewReader [x01]) src_nil) [x00]
       = ([], Panics nil_dereference).
Proof.
  apply (Close_without_closer testFileHeader (mkGzipReader [] None None)
           (NewReader [x01]) [x00] src_decompress).
  discriminate.
Defined.

(** ** [WriteTo] *)

(** X18.  [WriteTo] does not return: [io.Copy] hands the copy back to the
    handle's own [WriteTo], and no depth of calls is enough -- nothing is
    copied and the deferred [Close] is never reached. *)
Theorem WriteTo_never_returns (fuel : nat) (handle : FileHandle)
    (w : Buffer) :
  FileHandle_WriteTo fuel handle w = None.
Proof.
  induction fuel as [|fuel IH]; [reflexivity|].
  cbn [FileHandle_WriteTo]. rewrite IH. reflexivity.
Qed.

(** ** Random file names *)

Lemma get_in (s : string) :
  forall n : nat, (n < String.length s)%nat ->
  exists c, String.get n s = Some c /\ In c (list_ascii_of_string s).
Proof.
  induction s as [|a s IH]; intros n Hn; [cbn in Hn; lia|].
  destruct n as [|n].
  - exists a. split; [reflexivity | left; reflexivity].
  - cbn [String.length] in Hn. destruct (IH n ltac:(lia)) as (c & Hc & Hin).
    exists c. split; [exact Hc | right; exact Hin].
Qed.

Section RandomNames.

Variable rng : Type.
Variable rand_Intn : rng -> Z -> Z * rng.
Hypothesis Intn_range : Intn_in_range rand_Intn.

Lemma charset_at_in (g : rng) :
  exists c,
    charset_at (fst (rand_Intn g (Z.of_nat (String.length charset))))
    = Some c
    /\ In c (list_ascii_of_string charset).
Proof.
  pose proof (Intn_range g (Z.of_nat (String.length charset))
                ltac:(cbn; lia)) as Hi.
  unfold charset_at.
  destruct (Z.ltb_spec (fst (rand_Intn g (Z.of_nat (String.length charset))))
                       0); [lia|].
  apply get_in. lia.
Qed.

Lemma CreateRandomFileName_from_spec (n : nat) :
  forall g : rng,
  exists s,
    CreateRandomFileName_from rand_Intn n g = (Some s, draws rand_Intn n g)
    /\ String.length s = n
    /\ Forall (fun c => In c (list_ascii_of_string charset))
              (list_ascii_of_string s).
Proof.
  induction n as [|n IH]; intros g.
  - exists EmptyString. repeat split. constructor.
  - cbn [CreateRandomFileName_from draws].
    destruct (charset_at_in g) as (c & Hc & Hin).
    destruct (rand_Intn g (Z.of_nat (String.length charset))) as [i g1].
    cbn [fst snd] in *. rewrite Hc.
    destruct (IH g1) as (rest & Hrest & Hlen & Hall).
    rewrite Hrest. exists (String c rest). split; [reflexivity|].
    split; [cbn; congruence|]. cbn. constructor; assumption.
Qed.

(** The recursion of the source: one draw, one character, and the name of
    [length - 1]. *)
Lemma CreateRandomFileName_unfold (length : Z) (g : rng) :
  0 < length ->
  CreateRandomFileName rand_Intn length g
  = let '(i, g1) := rand_Intn g (Z.of_nat (String.length charset)) in
    match charset_at i with
    | None => (None, g1)
    | Some c =>
      match CreateRandomFileName rand_Intn (length - 1) g1 with
      | (Some rest, g2) => (Some (String c rest), g2)
      | (None, g2) => (None, g2)
      end
    end.
Proof.
  intros Hl. unfold CreateRandomFileName.
  destruct (Z.leb_spec length 0); [lia|].
  replace (Z.to_nat length) with (S (Z.to_nat (length - 1))) by lia.
  cbn [CreateRandomFileName_from].
  destruct (rand_Intn g (Z.of_nat (String.length charset))) as [i g1].
  destruct (charset_at i); [|reflexivity].
  destruct (Z.leb_spec (length - 1) 0); [|reflexivity].
  replace (Z.to_nat (length - 1)) with 0%nat by lia. reflexivity.
Qed.

(** X19.  With [rand.Intn] answering within its bound,
    [CreateRandomFileName(length)] returns a name of exactly [length]
    characters, every one of them from the charset, and draws exactly
    [length] numbers; for [length <= 0] the name is empty and nothing is
    drawn. *)
Theorem CreateRandomFileName_spec (length : Z) (g : rng) :
  exists s,
    CreateRandomFileName rand_Intn length g
    = (Some s, draws rand_Intn (Z.to_nat length) g)
    /\ Z.of_nat (String.length s) = Z.max 0 length
    /\ Forall (fun c => In c (list_ascii_of_string charset))
              (list_ascii_of_string s).
Proof.
  unfold CreateRandomFileName. destruct (Z.leb_spec length 0) as [H|H].
  - exists EmptyString. replace (Z.to_nat length) with 0%nat by lia.
    split; [reflexivity|]. split; [cbn; lia | constructor].
  - destruct (CreateRandomFileName_from_spec (Z.to_nat length) g)
      as (s & Hs & Hlen & Hall).
    exists s. split; [exact Hs|]. split; [lia | exact Hall].
Qed.

End RandomNames.

Lemma lcg_Intn_in_range : Intn_in_range lcg_Intn.
Proof.
  intros g n Hn. unfold lcg_Intn. cbn [fst]. apply Z.mod_pos_bound. exact Hn.
Qed.

Lemma CreateRandomFileName_spec_witness :
  exists s,
    CreateRandomFileName lcg_Intn 8 20161215
    = (Some s, draws lcg_Intn (Z.to_nat 8) 20161215)
    /\ Z.of_nat (String.length s) = Z.max 0 8
    /\ Forall (fun c => In c (list_ascii_of_string charset))
              (list_ascii_of_string s).
Proof.
  exact (CreateRandomFileName_spec Z lcg_Intn lcg_Intn_in_range 8 20161215).
Defined.

(** ** The first revision's [ReadFile] *)

Lemma Legacy_readLengthPrefixedString_full (r : Reader) :
  readable r = true ->
  (2 <= List.length (r_data r))%nat ->
  Legacy.readLengthPrefixedString r = readLengthPrefixedString r.
Proof.
  intros Hr Hl.
  unfold Legacy.readLengthPrefixedString, readLengthPrefixedString.
  rewrite Legacy_readNumber_full by (exact Hr || lia). reflexivity.
Qed.

Lemma length_writeLengthPrefixedString_bytes (str : string) :
  List.length (writeLengthPrefixedString_bytes str)
  = (2 + List.length (list_byte_of_string str))%nat.
Proof.
  unfold writeLengthPrefixedString_bytes.
  rewrite length_app, length_writeNumber_loop. reflexivity.
Qed.

Lemma Legacy_ReadFileHeader_fields_wire (h0 : FileHeader) (seconds : Z)
    (key : byte) (mime name : string) :
  strings_fit mime name ->
  Legacy.ReadFileHeader_fields h0
    (NewBuffer (wire_header seconds key mime name))
  = ReadFileHeader_fields h0 (NewBuffer (wire_header seconds key mime name)).
Proof.
  intros [Hm Hn].
  unfold Legacy.ReadFileHeader_fields, ReadFileHeader_fields, wire_header.
  rewrite Legacy_readNumber_full
    by (reflexivity
        || (cbn [NewBuffer r_data]; rewrite length_app,
              length_writeNumber_loop; lia)).
  rewrite (readNumber_written (NewBuffer _) _ 5 _ eq_refl)
    by (lia || reflexivity).
  unfold NewBuffer, set_data, ReadByte. cbn [r_kind r_data r_closed app].
  unfold set_data. cbn [r_kind r_data r_closed].
  rewrite Legacy_readLengthPrefixedString_full
    by (reflexivity
        || (cbn [r_data]; rewrite length_app,
              length_writeLengthPrefixedString_bytes; lia)).
  rewrite (readLengthPrefixedString_written (mkReader BytesBuffer _ false)
             mime (writeLengthPrefixedString_bytes name) eq_refl eq_refl)
    by lia.
  unfold set_data. cbn [r_kind r_data r_closed].
  rewrite Legacy_readLengthPrefixedString_full
    by (reflexivity
        || (cbn [r_data]; rewrite length_writeLengthPrefixedString_bytes;
            lia)).
  reflexivity.
Qed.

Lemma Legacy_ReadFileHeader_wire (r : Reader) (m0 m1 : byte) (seconds : Z)
    (key : byte) (mime name : string) (trailing : list byte) :
  r_data r
  = wire_frame m0 m1 (wire_header seconds key mime name) ++ trailing ->
  readable r = true ->
  magic_accepted m0 m1 ->
  wire_fits mime name ->
  Legacy.ReadFileHeader r
  = (mkFileHeader (time_Unix (seconds mod 2 ^ 40) 0) key mime name,
     2, None, set_data r trailing).
Proof.
  intros Hd Hr Hm Hf. unfold Legacy.ReadFileHeader.
  unfold wire_frame in Hd. rewrite <- !app_assoc in Hd.
  assert (H2 := Read_prefix r [m0; m1] _ Hd ltac:(discriminate) Hr).
  cbn [List.length] in H2. rewrite H2. cbn [nth].
  assert (Hc : negb (Byte.eqb m0 m1) && negb (Byte.eqb m0 xfa) = false).
  { destruct Hm as [-> | ->].
    - rewrite (Byte.byte_dec_lb eq_refl). reflexivity.
    - apply andb_false_r. }
  rewrite Hc.
  pose proof (length_wire_header seconds key mime name) as Hl.
  unfold wire_fits in Hf.
  set (hdr := wire_header seconds key mime name) in *.
  rewrite Legacy_readNumber_full
    by (exact Hr
        || (cbn [set_data r_data]; rewrite length_app,
              length_writeNumber_loop; lia)).
  rewrite (readNumber_written (set_data r _) _ 2 _ eq_refl)
    by (lia || exact Hr).
  rewrite set_data_set_data.
  assert (Hn : uint (Z.of_nat (List.length hdr)) mod 2 ^ (8 * Z.of_nat 2)
               = Z.of_nat (List.length hdr)).
  { unfold uint. change (2 ^ (8 * Z.of_nat 2)) with 65536.
    rewrite (Z.mod_small _ (2 ^ 64)) by lia. apply Z.mod_small. lia. }
  rewrite Hn, Nat2Z.id.
  rewrite (Read_prefix (set_data r _) hdr trailing eq_refl)
    by (exact Hr || (intros E; rewrite E in Hl; cbn [List.length] in Hl; lia)).
  rewrite set_data_set_data. unfold hdr.
  rewrite Legacy_ReadFileHeader_fields_wire
    by (apply wire_fits_strings_fit; exact Hf).
  rewrite ReadFileHeader_fields_wire
    by (apply wire_fits_strings_fit; exact Hf).
  reflexivity.
Qed.

(** X20.  On a well-formed container the first revision's [ReadFile] reads
    the header the current one reads, and then opens the decompressor at
    once, on the bytes after the header: it calls [gzip.NewReader] exactly
    once, returns the decompressor in the handle when the stream is
    accepted, and returns the decompressor's error -- as an error, with a
    handle without a decompressor -- when it is not. *)
Theorem Legacy_ReadFile_opens_decompressor
    (gzip_NewReader : Reader -> (error + gzipReader) * Reader)
    (r : Reader) (seconds : Z) (key : byte) (mime name : string)
    (trailing : list byte) :
  r_data r
  = wire_frame xfa xfa (wire_header seconds key mime name) ++ trailing ->
  readable r = true ->
  wire_fits mime name ->
  let header := mkFileHeader (time_Unix (seconds mod 2 ^ 40) 0) key mime name
  in
  ReadFile gzip_NewReader (Some r)
  = ([], Returns (Some (raw_handle header (set_data r trailing)), None))
  /\ Legacy.ReadFile gzip_NewReader (Some r)
     = ([call_gzip_NewReader],
        Returns
          match gzip_NewReader (set_data r trailing) with
          | (inl e, raw) => (Some (Legacy.mkFileHandle header None raw), Some e)
          | (inr gz, raw) =>
            (Some (Legacy.mkFileHandle header (Some gz) raw), None)
          end).
Proof.
  intros Hd Hr Hf header. split.
  - apply (ReadFile_wire gzip_NewReader r xfa xfa seconds key mime name
             trailing Hd Hr); [right; reflexivity | exact Hf].
  - unfold Legacy.ReadFile.
    rewrite (Legacy_ReadFileHeader_wire r xfa xfa seconds key mime name
               trailing Hd Hr) by (exact Hf || (right; reflexivity)).
    fold header.
    destruct (gzip_NewReader (set_data r trailing)) as [[e|gz] raw];
      reflexivity.
Qed.

Lemma Legacy_ReadFile_opens_decompressor_witness :
  ReadFile Stored.gzip_NewReader
    (Some (NewReader (frame testFileHeader ++ [x00; x00])))
  = ([], Returns
           (Some (raw_handle testFileHeader (NewReader [x00; x00])), None))
  /\ Legacy.ReadFile Stored.gzip_NewReader
       (Some (NewReader (frame testFileHeader ++ [x00; x00])))
     = ([call_gzip_NewReader],
        Returns (Some (Legacy.mkFileHandle testFileHeader None
                                           (NewReader [])),
                 Some io_ErrUnexpectedEOF)).
Proof.
  apply (Legacy_ReadFile_opens_decompressor Stored.gzip_NewReader
           (NewReader (frame testFileHeader ++ [x00; x00]))
           1481834107 x01 "image/png" "Screenshot at todo" [x00; x00]).
  - reflexivity.
  - reflexivity.
  - unfold wire_fits. cbn. lia.
Defined.
